(** * evdev/input.c : the device capability and event codec layer

    A shallow embedding of the C extension module [_input] of python-evdev
    and the properties of its bitmask probe, event codec, capability
    enumerator, identity and control queries and force-feedback writes.

    Conventions of the embedding.
    - A C [int], [long], [__u16], [__s32] value is a [Z]; where the code
      narrows or reinterprets a value the wrap-around is written out.
    - Memory is a list of bytes, each a [Z] (the bit pattern of a [char]).
      A pointer is the list of bytes readable from it onwards; a read past
      the end of that list has no defined result ([None] / [Undefined]).
    - An automatic variable without initialiser holds whatever its stack
      slot held; that content is a parameter of each function ([stack]).
    - A system call is not executed but given: its outcome (error with
      errno, or success with the bytes the kernel copied out) is an
      argument of the function, or an oracle when a loop calls it for
      several requests.
    - Argument parsing ([PyArg_ParseTuple]) is not modelled; each function
      starts from its parsed C arguments. *)

From Stdlib Require Import ZArith List Bool Lia Sorted.
Import ListNotations.
Open Scope Z_scope.

Set Implicit Arguments.

(** ** Constants of <linux/input.h> *)

(** The header is included by the source and is not part of the repository;
    the values are those of the kernel's user-space API. *)
Module LinuxInput.
Definition EV_KEY : Z := 1.
Definition EV_ABS : Z := 3.
Definition EV_SW : Z := 5.
Definition EV_LED : Z := 17.
Definition EV_SND : Z := 18.
Definition EV_FF : Z := 21.
Definition EV_MAX : Z := 31.
Definition KEY_MAX : Z := 767.
Definition LED_MAX : Z := 15.
Definition SW_MAX : Z := 15.
Definition SND_MAX : Z := 7.
Definition FF_GAIN : Z := 96.
Definition FF_AUTOCENTER : Z := 97.
End LinuxInput.

Definition MAX_NAME_SIZE : Z := 256.

(** ** Memory *)

Definition byte := Z.
Definition mem := list byte.

(** [load m off len]: the [len] bytes at offset [off], if they all exist. *)
Definition load (m : mem) (off len : nat) : option mem :=
  if (off + len <=? length m)%nat then Some (firstn len (skipn off m)) else None.

(** [poke data m]: [data] written at the start of [m] (what a system call
    does with the bytes it copies to a user pointer). *)
Definition poke (data m : mem) : mem := data ++ skipn (length data) m.

(** [store m off bs]: [bs] written at offset [off] of [m] (a field store). *)
Definition store (m : mem) (off : nat) (bs : mem) : mem :=
  firstn off m ++ bs ++ skipn (off + length bs) m.

(** [memset] of a whole object of [n] bytes to zero. *)
Definition zeroed (n : nat) : mem := repeat 0 n.

(** Little-endian integers, as the supported targets lay them out. *)
Fixpoint le_bytes (n : nat) (v : Z) : mem :=
  match n with
  | O => []
  | S n' => (v mod 256) :: le_bytes n' (v / 256)
  end.

Fixpoint le_unsigned (bs : mem) : Z :=
  match bs with
  | [] => 0
  | b :: r => b + 256 * le_unsigned r
  end.

Definition le_signed (bs : mem) : Z :=
  let u := le_unsigned bs in
  let w := 8 * Z.of_nat (length bs) in
  if u <? 2 ^ (w - 1) then u else u - 2 ^ w.

(** A NUL-terminated string read from a pointer: the bytes before the first
    zero byte, provided one exists in readable memory. *)
Fixpoint c_string (m : mem) : option mem :=
  match m with
  | [] => None
  | b :: r => if b =? 0 then Some []
              else match c_string r with
                   | Some s => Some (b :: s)
                   | None => None
                   end
  end.

(** ** Python values and call outcomes *)

#[warnings="-register-all"]
Inductive PyObject : Type :=
| PyNone
| PyLong (z : Z)
| PyStr (s : mem)
| PyTuple (items : list PyObject)
| PyList (items : list PyObject)
| PyDict (items : list (Z * PyObject)).

(** [PyDict_SetItem] on a dict with integer keys kept in insertion order. *)
Fixpoint PyDict_SetItem (d : list (Z * PyObject)) (k : Z) (v : PyObject)
  : list (Z * PyObject) :=
  match d with
  | [] => [(k, v)]
  | (k', v') :: r => if k' =? k then (k, v) :: r
                     else (k', v') :: PyDict_SetItem r k v
  end.

(** What a call of an extension function does. *)
Inductive outcome : Type :=
| Return (v : PyObject)          (* a new reference is returned *)
| IOError (errno : Z)            (* PyErr_SetFromErrno(PyExc_IOError); NULL *)
| NullNoError                    (* NULL returned, no exception set *)
| Undefined                      (* an access outside readable memory *)
| UnicodeDecodeError.            (* Py_BuildValue "s" on bytes that are not
                                    UTF-8 (Python 3); NULL *)

(** ** System calls *)

(** Outcome of [ioctl]: [-1] with [errno] set and nothing copied out, or a
    non-negative return value with the bytes copied to the argument. *)
Inductive ioctl_result : Type :=
| IoctlErr (errno : Z)
| IoctlOk (ret : nat) (out : mem).

Definition ioctl_ret (r : ioctl_result) : Z :=
  match r with IoctlErr _ => -1 | IoctlOk n _ => Z.of_nat n end.

Definition ioctl_out (r : ioctl_result) : mem :=
  match r with IoctlErr _ => [] | IoctlOk _ o => o end.

(** [errno] after the call, given its value before. *)
Definition ioctl_errno (r : ioctl_result) (errno : Z) : Z :=
  match r with IoctlErr e => e | IoctlOk _ _ => errno end.

(** Outcome of [read]: [-1] with [errno], or the bytes delivered (the
    return value is their number). *)
Inductive read_result : Type :=
| ReadErr (errno : Z)
| ReadOk (data : mem).

Definition read_ret (r : read_result) : Z :=
  match r with ReadErr _ => -1 | ReadOk d => Z.of_nat (length d) end.

Definition read_out (r : read_result) : mem :=
  match r with ReadErr _ => [] | ReadOk d => d end.

Definition read_errno (r : read_result) (errno : Z) : Z :=
  match r with ReadErr e => e | ReadOk _ => errno end.

(** Outcome of [write]: [-1] with [errno], or the number of bytes taken. *)
Inductive write_result : Type :=
| WriteErr (errno : Z)
| WriteOk (n : nat).

Definition write_ret (r : write_result) : Z :=
  match r with WriteErr _ => -1 | WriteOk n => Z.of_nat n end.

Definition write_errno (r : write_result) (errno : Z) : Z :=
  match r with WriteErr e => e | WriteOk _ => errno end.

(** ** Bitmask probe *)

(** [int test_bit(const char* bitmask, int bit)]:
    [bitmask[bit/8] & (1 << (bit % 8))].  C's [/] and [%] truncate towards
    zero ([Z.quot], [Z.rem]); a negative index or shift count and a read
    outside [bitmask] are undefined. *)
Definition test_bit (bitmask : mem) (bit : Z) : option Z :=
  let idx := Z.quot bit 8 in
  let sh := Z.rem bit 8 in
  if (idx <? 0) || (sh <? 0) then None
  else match nth_error bitmask (Z.to_nat idx) with
       | Some b => Some (Z.land b (Z.shiftl 1 sh))
       | None => None
       end.

(** ** Counted loops *)

(** [for (i = lo; i < hi; i++) body], the body threading a state and
    possibly running into an undefined access. *)
Fixpoint for_loop {S : Type} (n : nat) (i : Z) (body : Z -> S -> option S)
  (s : S) : option S :=
  match n with
  | O => Some s
  | Datatypes.S n' =>
      match body i s with
      | Some s' => for_loop n' (i + 1) body s'
      | None => None
      end
  end.

Definition for_range {S : Type} (lo hi : Z) (body : Z -> S -> option S)
  (s : S) : option S :=
  for_loop (Z.to_nat (hi - lo)) lo body s.

(** The values the counter of [for_loop n i] takes, in order. *)
Fixpoint seqZ (i : Z) (n : nat) : list Z :=
  match n with
  | O => []
  | Datatypes.S n' => i :: seqZ (i + 1) n'
  end.

(** ** Event wire codec *)

(** [struct input_event] on an LP64 little-endian target:
    [time.tv_sec] (long, offset 0), [time.tv_usec] (long, offset 8),
    [type] (__u16, 16), [code] (__u16, 18), [value] (__s32, 20). *)
Record input_event : Type := mk_input_event {
  tv_sec : Z;
  tv_usec : Z;
  type : Z;
  code : Z;
  value : Z
}.

Definition sizeof_input_event : nat := 24.

(** The bytes of a field inside a struct that is wholly in memory. *)
Definition field (m : mem) (off len : nat) : mem := firstn len (skipn off m).

(** The fields of an [input_event] whose 24 bytes are [e]. *)
Definition decode_input_event (e : mem) : input_event :=
  {| tv_sec := le_signed (field e 0 8);
     tv_usec := le_signed (field e 8 8);
     type := le_unsigned (field e 16 2);
     code := le_unsigned (field e 18 2);
     value := le_signed (field e 20 4) |}.

(** Reading the fields of the [input_event] stored at byte offset [off]. *)
Definition read_input_event (m : mem) (off : nat) : option input_event :=
  match load m off sizeof_input_event with
  | Some e => Some (decode_input_event e)
  | None => None
  end.

(** [Py_BuildValue("OOhhO", sec, usec, event.type, event.code, val)] with
    [sec], [usec], [val] made by [PyLong_FromLong]. *)
Definition event_tuple (ev : input_event) : PyObject :=
  PyTuple [PyLong (tv_sec ev); PyLong (tv_usec ev);
           PyLong (type ev); PyLong (code ev); PyLong (value ev)].

(** [device_read]: [stack] is the content of the uninitialised
    [struct input_event event] before [read] fills its first bytes. *)
Definition device_read (errno : Z) (stack : mem) (r : read_result) : outcome :=
  let event := poke (read_out r) stack in
  let n := read_ret r in
  if n <? 0 then IOError (read_errno r errno)
  else match read_input_event event 0 with
       | Some ev => Return (event_tuple ev)
       | None => Undefined
       end.

(** [device_read_many], from the outcome [r] of its [read] on: [stack] is
    the content of the uninitialised [struct input_event event[64]].  The
    request that produces [r] is part of [device_read_many_fd] below. *)
Definition device_read_many (errno : Z) (stack : mem) (r : read_result)
  : outcome :=
  let event_list : list PyObject := [] in
  let event := poke (read_out r) stack in
  let event_size := Z.of_nat sizeof_input_event in
  let nread := read_ret r in
  if nread <? 0 then IOError (read_errno r errno)
  else
    (* nread is not negative here: the unsigned division of C is [/] *)
    match for_range 0 (nread / event_size)
            (fun i event_list =>
               match read_input_event event
                       (Z.to_nat i * sizeof_input_event) with
               | Some ev => Some (event_list ++ [event_tuple ev])
               | None => None
               end) event_list with
    | Some event_list => Return (PyList event_list)
    | None => Undefined
    end.

(** The whole records of the bytes a [read] delivered, decoded, in the
    order of arrival. *)
Definition whole_records (data : mem) : list PyObject :=
  map (fun k => event_tuple
                  (decode_input_event
                     (field data (k * sizeof_input_event) sizeof_input_event)))
      (seq 0 (length data / sizeof_input_event)).

(** A descriptor at the time of a [read]: the call fails with an errno, or
    the kernel has [available] bytes to deliver.  [read] never delivers
    more than the [count] bytes it is asked for. *)
Inductive descriptor : Type :=
| FdError (errno : Z)
| FdReady (available : mem).

Definition sys_read (fd : descriptor) (count : Z) : read_result :=
  match fd with
  | FdError e => ReadErr e
  | FdReady available => ReadOk (firstn (Z.to_nat count) available)
  end.

(** [device_read_many] with its request:
    [nread = read(fd, event, event_size*64)]. *)
Definition device_read_many_fd (errno : Z) (stack : mem) (fd : descriptor)
  : outcome :=
  let event_size := Z.of_nat sizeof_input_event in
  device_read_many errno stack (sys_read fd (event_size * 64)).

(** [event_unpack]: [memcpy(&event, data, sizeof(event)); Py_RETURN_NONE].
    The buffer of an "s#" argument is followed by one NUL byte. *)
Definition event_unpack (data : mem) : outcome :=
  match load (data ++ [0]) 0 sizeof_input_event with
  | Some _event => Return PyNone
  | None => Undefined
  end.

(** Modelled from the spec: the encoder of an event record is missing from
    src/ (records are produced by the kernel); this is the "fixed-size
    binary input_event layout" of the spec's round-trip property, the
    layout [read_input_event] reads. *)
Definition encode_event (ev : input_event) : mem :=
  le_bytes 8 (tv_sec ev) ++ le_bytes 8 (tv_usec ev) ++
  le_bytes 2 (type ev) ++ le_bytes 2 (code ev) ++ le_bytes 4 (value ev).

(** The values the fields of an event record can hold. *)
Definition event_in_range (ev : input_event) : Prop :=
  - 2 ^ 63 <= tv_sec ev < 2 ^ 63 /\
  - 2 ^ 63 <= tv_usec ev < 2 ^ 63 /\
  0 <= type ev < 2 ^ 16 /\
  0 <= code ev < 2 ^ 16 /\
  - 2 ^ 31 <= value ev < 2 ^ 31.

(** ** Capability enumerator *)

Import LinuxInput.

(** [char ev_bits[EV_MAX/8], code_bits[KEY_MAX/8]]: the array bounds are
    integer constant expressions, the division truncates. *)
Definition sizeof_ev_bits : nat := Z.to_nat (Z.quot EV_MAX 8).
Definition sizeof_code_bits : nat := Z.to_nat (Z.quot KEY_MAX 8).

(** [struct input_absinfo]: six [__s32] fields, 24 bytes. *)
Definition sizeof_input_absinfo : nat := 24.

(** [Py_BuildValue("(iiiiii)", absinfo.value, absinfo.minimum,
    absinfo.maximum, absinfo.fuzz, absinfo.flat, absinfo.resolution)]. *)
Definition absinfo_tuple (absinfo : mem) : PyObject :=
  PyTuple [PyLong (le_signed (field absinfo 0 4));
           PyLong (le_signed (field absinfo 4 4));
           PyLong (le_signed (field absinfo 8 4));
           PyLong (le_signed (field absinfo 12 4));
           PyLong (le_signed (field absinfo 16 4));
           PyLong (le_signed (field absinfo 20 4))].

(** An object of [n] bytes, zeroed by [memset], after a system call copied
    [out] to its address: the bytes of the object itself. *)
Definition filled (n : nat) (out : mem) : mem :=
  firstn n (poke out (zeroed n)).

Section Capabilities.

(** The kernel: [EVIOCGBIT ev len] and [EVIOCGABS abs] answer the
    requests of those names on the descriptor. *)
Variable EVIOCGBIT : Z -> Z -> ioctl_result.
Variable EVIOCGABS : Z -> ioctl_result.

(** The stack frame: the bytes that lie just behind [ev_bits] when type
    [ev_type] is probed, and behind [code_bits] when code [ev_code] of
    type [ev_type] is probed.  The empty list is the reading of the C
    standard, in which nothing behind an array may be read.  What the
    kernel copies out beyond the end of an array (it answers in whole
    [long]s) lands in these bytes; an array itself keeps the first
    [sizeof] bytes of the answer ([filled]). *)
Variable ev_adjacent : Z -> mem.
Variable code_adjacent : Z -> Z -> mem.

(** The [EVIOCGABS] request of the inner loop and the struct it leaves. *)
Definition fetch_absinfo (ev_code : Z) : mem :=
  filled sizeof_input_absinfo (ioctl_out (EVIOCGABS ev_code)).

(** Body of [for (ev_code = 0; ev_code < KEY_MAX; ev_code++)]. *)
Definition code_body (ev_type : Z) (code_bits : mem) (ev_code : Z)
  (eventcodes : list PyObject) : option (list PyObject) :=
  match test_bit (code_bits ++ code_adjacent ev_type ev_code) ev_code with
  | None => None
  | Some b =>
      if b =? 0 then Some eventcodes
      else if ev_type =? EV_ABS then
        let absinfo := fetch_absinfo ev_code in
        let py_absinfo := absinfo_tuple absinfo in
        let evlong := PyLong ev_code in
        let absitem := PyTuple [evlong; py_absinfo] in
        Some (eventcodes ++ [absitem])
      else
        let evlong := PyLong ev_code in
        Some (eventcodes ++ [evlong])
  end.

(** Body of [for (ev_type = 0; ev_type < EV_MAX; ev_type++)]. *)
Definition type_body (ev_bits : mem) (ev_type : Z)
  (capabilities : list (Z * PyObject)) : option (list (Z * PyObject)) :=
  match test_bit (ev_bits ++ ev_adjacent ev_type) ev_type with
  | None => None
  | Some b =>
      if b =? 0 then Some capabilities
      else
        let code_bits :=
          filled sizeof_code_bits (ioctl_out (EVIOCGBIT ev_type KEY_MAX)) in
        match for_range 0 KEY_MAX (code_body ev_type code_bits) [] with
        | Some eventcodes =>
            Some (PyDict_SetItem capabilities ev_type (PyList eventcodes))
        | None => None
        end
  end.

Definition ioctl_capabilities (errno : Z) : outcome :=
  let capabilities : list (Z * PyObject) := [] in
  let r := EVIOCGBIT 0 EV_MAX in
  let ev_bits := filled sizeof_ev_bits (ioctl_out r) in
  if ioctl_ret r <? 0 then IOError (ioctl_errno r errno)
  else match for_range 0 EV_MAX (type_body ev_bits) capabilities with
       | Some capabilities => Return (PyDict capabilities)
       | None => Undefined
       end.

(** *** The map the scans build, in closed form

    The result of the two loops written with [filter] and [map]: the
    indices at which the probe of [test_bit] came back non-zero, in
    ascending order.  These definitions describe the code, not the
    kernel: a probe at an index behind the end of an array reads the
    frame ([ev_adjacent], [code_adjacent]), not the kernel's answer. *)

(** The indices [0 .. n-1] of a bit scan. *)
Definition indices (n : Z) : list Z := seqZ 0 (Z.to_nat n).

(** Bit [i] of the bitmask readable at [m] is set. *)
Definition bit_set (m : mem) (i : Z) : bool :=
  match test_bit m i with
  | Some b => negb (b =? 0)
  | None => false
  end.

(** The probe of type [t] by the outer loop came back non-zero. *)
Definition type_probed (ev_bits : mem) (t : Z) : bool :=
  bit_set (ev_bits ++ ev_adjacent t) t.

(** The probe of code [c] by the inner loop of type [t] came back
    non-zero. *)
Definition code_probed (t : Z) (code_bits : mem) (c : Z) : bool :=
  bit_set (code_bits ++ code_adjacent t c) c.

(** The entry the inner loop appends for code [c] under type [t]. *)
Definition capability_entry (t c : Z) : PyObject :=
  if t =? EV_ABS
  then PyTuple [PyLong c; absinfo_tuple (fetch_absinfo c)]
  else PyLong c.

Definition probed_codes (t : Z) : list Z :=
  filter (code_probed t
            (filled sizeof_code_bits (ioctl_out (EVIOCGBIT t KEY_MAX))))
         (indices KEY_MAX).

Definition probed_types : list Z :=
  filter (type_probed
            (filled sizeof_ev_bits (ioctl_out (EVIOCGBIT 0 EV_MAX))))
         (indices EV_MAX).

Definition capability_map : list (Z * PyObject) :=
  map (fun t => (t, PyList (map (capability_entry t) (probed_codes t))))
      probed_types.

End Capabilities.

(** ** Device identity *)

Definition in_range (lo hi b : Z) : bool := (lo <=? b) && (b <=? hi).

(** Well-formed UTF-8, as the strict decoder of Python 3 accepts it: the
    byte sequences of the Unicode standard (no overlong forms, no
    surrogates, nothing above U+10FFFF, no truncated sequence). *)
Fixpoint utf8_valid (s : mem) : bool :=
  match s with
  | [] => true
  | b1 :: r1 =>
      if in_range 0 127 b1 then utf8_valid r1
      else
        match r1 with
        | [] => false
        | b2 :: r2 =>
            if in_range 194 223 b1
            then in_range 128 191 b2 && utf8_valid r2
            else
              match r2 with
              | [] => false
              | b3 :: r3 =>
                  if in_range 224 239 b1
                  then (if b1 =? 224 then in_range 160 191 b2
                        else if b1 =? 237 then in_range 128 159 b2
                        else in_range 128 191 b2)
                       && in_range 128 191 b3 && utf8_valid r3
                  else
                    match r3 with
                    | [] => false
                    | b4 :: r4 =>
                        in_range 240 244 b1
                        && (if b1 =? 240 then in_range 144 191 b2
                            else if b1 =? 244 then in_range 128 143 b2
                            else in_range 128 191 b2)
                        && in_range 128 191 b3 && in_range 128 191 b4
                        && utf8_valid r4
                    end
              end
        end
  end.

(** The "s" unit of [Py_BuildValue] on the C string [s].  The source
    builds for Python 2 and for Python 3 (its [#if PY_MAJOR_VERSION >= 3]):
    Python 2 makes a byte string of any bytes; Python 3 decodes UTF-8 into a
    [str] and fails, with [UnicodeDecodeError] set, on bytes that are not
    UTF-8.  [PyStr s] is the string whose bytes (UTF-8 encoding) are [s]. *)
Definition Py_BuildValue_s (PY_MAJOR_VERSION : Z) (s : mem) : option PyObject :=
  if (3 <=? PY_MAJOR_VERSION) && negb (utf8_valid s) then None
  else Some (PyStr s).

(** [ioctl_devinfo]: [name_stack] is the content of the uninitialised
    [char name[MAX_NAME_SIZE]]; [phys] starts zeroed ([= {0}]).  The three
    requests are issued in order, a later one only if the earlier ones did
    not fail.  [struct input_id] is four [__u16].  [Py_BuildValue] reads
    both strings up to their terminator, also when a unit before failed,
    and returns NULL when a unit failed. *)
Definition ioctl_devinfo (PY_MAJOR_VERSION : Z) (errno : Z) (name_stack : mem)
  (r_id r_name r_phys : ioctl_result) : outcome :=
  let iid := filled 8 (ioctl_out r_id) in
  if ioctl_ret r_id <? 0 then IOError (ioctl_errno r_id errno)
  else
    let name := firstn (Z.to_nat MAX_NAME_SIZE)
                  (poke (ioctl_out r_name) name_stack) in
    if ioctl_ret r_name <? 0
    then IOError (ioctl_errno r_name (ioctl_errno r_id errno))
    else
      let phys := filled (Z.to_nat MAX_NAME_SIZE) (ioctl_out r_phys) in
      match c_string name, c_string phys with
      | Some name_s, Some phys_s =>
          match Py_BuildValue_s PY_MAJOR_VERSION name_s,
                Py_BuildValue_s PY_MAJOR_VERSION phys_s with
          | Some py_name, Some py_phys =>
              Return (PyTuple [PyLong (le_unsigned (field iid 0 2));
                               PyLong (le_unsigned (field iid 2 2));
                               PyLong (le_unsigned (field iid 4 2));
                               PyLong (le_unsigned (field iid 6 2));
                               py_name; py_phys])
          | _, _ => UnicodeDecodeError
          end
      | _, _ => Undefined
      end.

(** ** Control queries *)

(** [ioctl_EVIOCGREP]: [unsigned int rep[2] = {0}], the return value of
    [ioctl] is not looked at; "(ii)" reads both as [int]. *)
Definition ioctl_EVIOCGREP (r : ioctl_result) : outcome :=
  let rep := filled 8 (ioctl_out r) in
  Return (PyTuple [PyLong (le_signed (field rep 0 4));
                   PyLong (le_signed (field rep 4 4))]).

(** [ioctl_EVIOCSREP]: [ret = ioctl(...); return Py_BuildValue("i", ret)]. *)
Definition ioctl_EVIOCSREP (rep0 rep1 : Z) (r : ioctl_result) : outcome :=
  let ret := ioctl_ret r in
  Return (PyLong ret).

(** [ioctl_EVIOCGVERSION]: [int res] has no initialiser ([stack] is its
    slot), [ret] is assigned and not looked at. *)
Definition ioctl_EVIOCGVERSION (stack : mem) (r : ioctl_result) : outcome :=
  match load (poke (ioctl_out r) stack) 0 4 with
  | Some res => Return (PyLong (le_signed res))
  | None => Undefined
  end.

(** [ioctl_EVIOCGRAB]: the flag is passed by value, nothing is copied out. *)
Definition ioctl_EVIOCGRAB (errno : Z) (flag : Z) (r : ioctl_result)
  : outcome :=
  let ret := ioctl_ret r in
  if negb (ret =? 0) then IOError (ioctl_errno r errno)
  else Return PyNone.

(** [ioctl_EVIOCGEFFECTS]: [int n_effects] has no initialiser. *)
Definition ioctl_EVIOCGEFFECTS (errno : Z) (stack : mem) (r : ioctl_result)
  : outcome :=
  let ret := ioctl_ret r in
  if negb (ret =? 0) then IOError (ioctl_errno r errno)
  else match load (poke (ioctl_out r) stack) 0 4 with
       | Some n_effects => Return (PyLong (le_signed n_effects))
       | None => Undefined
       end.

(** ** Force feedback *)

(** [struct ff_effect] (48 bytes): [type] (__u16, offset 0), [id] (__s16, 2),
    [direction] (__u16, 4), [trigger.button] (6), [trigger.interval] (8),
    [replay.length] (10), [replay.delay] (12), and in the union at offset 16
    [u.constant.level] (__s16, 16) and its envelope: [attack_length] (18),
    [attack_level] (20), [fade_length] (22), [fade_level] (24). *)
Definition sizeof_ff_effect : nat := 48.

(** The effect [ioctl_EVIOCSFF] builds, in the order of its assignments. *)
Definition build_ff_effect (fxtype direction replay_length replay_delay
  constant_level attack_level attack_length fade_level fade_length fxid : Z)
  : mem :=
  let effect := zeroed sizeof_ff_effect in
  let effect := store effect 2 (le_bytes 2 fxid) in
  let effect := store effect 0 (le_bytes 2 fxtype) in
  let effect := store effect 6 (le_bytes 2 0) in
  let effect := store effect 8 (le_bytes 2 0) in
  let effect := store effect 10 (le_bytes 2 replay_length) in
  let effect := store effect 12 (le_bytes 2 replay_delay) in
  let effect := store effect 4 (le_bytes 2 direction) in
  let effect := store effect 16 (le_bytes 2 constant_level) in
  let effect := store effect 18 (le_bytes 2 attack_length) in
  let effect := store effect 20 (le_bytes 2 attack_level) in
  let effect := store effect 22 (le_bytes 2 fade_length) in
  let effect := store effect 24 (le_bytes 2 fade_level) in
  effect.

(** [ioctl_EVIOCSFF]: the kernel's answer overwrites the start of the
    effect (it stores the assigned id there). *)
Definition ioctl_EVIOCSFF (errno : Z) (fxtype direction replay_length
  replay_delay constant_level attack_level attack_length fade_level
  fade_length fxid : Z) (r : ioctl_result) : outcome :=
  let effect := build_ff_effect fxtype direction replay_length replay_delay
                  constant_level attack_level attack_length fade_level
                  fade_length fxid in
  let effect := firstn sizeof_ff_effect (poke (ioctl_out r) effect) in
  let ret := ioctl_ret r in
  if negb (ret =? 0) then IOError (ioctl_errno r errno)
  else
    let effect_id := le_signed (field effect 2 2) in
    Return (PyLong effect_id).

Definition ioctl_EVIOCRMFF (errno : Z) (effect_id : Z) (r : ioctl_result)
  : outcome :=
  let ret := ioctl_ret r in
  if negb (ret =? 0) then IOError (ioctl_errno r errno)
  else Return PyNone.

(** The three writers declare a [struct input_event] without initialiser
    ([stack] is its slot), assign [type], [code] and [value], and pass the
    whole struct to [write].  The first component of the result is the
    record handed to [write], the second what the function returns. *)
Definition ff_event (stack : mem) (ev_type ev_code ev_value : Z) : mem :=
  let ev := stack in
  let ev := store ev 16 (le_bytes 2 ev_type) in
  let ev := store ev 18 (le_bytes 2 ev_code) in
  let ev := store ev 20 (le_bytes 4 ev_value) in
  ev.

Definition ff_write (errno : Z) (ev : mem) (w : write_result)
  : mem * outcome :=
  let ret := write_ret w in
  (firstn sizeof_input_event ev,
   if ret =? -1 then IOError (write_errno w errno) else Return PyNone).

Definition set_FF_AUTOCENTER (errno : Z) (stack : mem)
  (autocenter_force : Z) (w : write_result) : mem * outcome :=
  let ff_center := ff_event stack EV_FF FF_AUTOCENTER autocenter_force in
  ff_write errno ff_center w.

Definition set_FF_GAIN (errno : Z) (stack : mem) (gain : Z)
  (w : write_result) : mem * outcome :=
  let ff_gain := ff_event stack EV_FF FF_GAIN gain in
  ff_write errno ff_gain w.

Definition play_FF_EFFECT (errno : Z) (stack : mem) (fxid ntimes : Z)
  (w : write_result) : mem * outcome :=
  let ff_play := ff_event stack EV_FF fxid ntimes in
  ff_write errno ff_play w.

(** ** State enumeration *)

(** [get_sw_led_snd]: [char bytes[(max+7)/8]], zeroed; the return value of
    the request is assigned and not looked at. *)
Definition sw_led_snd_max (evtype : Z) : option Z :=
  if evtype =? EV_LED then Some LED_MAX
  else if evtype =? EV_SW then Some SW_MAX
  else if evtype =? EV_SND then Some SND_MAX
  else None.

Definition sw_led_snd_scan (max : Z) (bytes : mem) : option (list PyObject) :=
  for_range 0 max
    (fun i res =>
       match test_bit bytes i with
       | Some b => if b =? 0 then Some res else Some (res ++ [PyLong i])
       | None => None
       end) [].

Definition get_sw_led_snd (evtype : Z) (r : ioctl_result) : outcome :=
  match sw_led_snd_max evtype with
  | None => NullNoError
  | Some max =>
      let bytes := filled (Z.to_nat (Z.quot (max + 7) 8)) (ioctl_out r) in
      match sw_led_snd_scan max bytes with
      | Some res => Return (PyList res)
      | None => Undefined
      end
  end.

(** ** Error signalling *)

(** An operation built on one [ioctl] signals a failure of that request as
    a fault carrying its OS error code. *)
Definition faults_on_error (op : ioctl_result -> outcome) : Prop :=
  forall e, op (IoctlErr e) = IOError e.

(** The same for an operation built on one [write]; the operation also
    yields the record it wrote. *)
Definition write_faults_on_error (op : write_result -> mem * outcome) : Prop :=
  forall e, snd (op (WriteErr e)) = IOError e.

(** ** A sample device *)

(** A device with types [EV_KEY] and [EV_ABS] (bits 1 and 3 of the type
    mask), keys 30 and 48, axes 0 and 1; the kernel answers with whole
    [long]s, as it does. *)
Definition sample_EVIOCGBIT (ev len : Z) : ioctl_result :=
  if (ev =? 0) && (len =? EV_MAX) then IoctlOk 8 [10; 0; 0; 0; 0; 0; 0; 0]
  else if ev =? EV_KEY then IoctlOk 96 ([0; 0; 0; 64; 0; 0; 1] ++ zeroed 89)
  else if ev =? EV_ABS then IoctlOk 8 [3; 0; 0; 0; 0; 0; 0; 0]
  else IoctlErr 22.

Definition sample_EVIOCGABS (abs : Z) : ioctl_result :=
  IoctlOk 0 (le_bytes 4 (128 + abs) ++ le_bytes 4 (-255) ++ le_bytes 4 255 ++
             le_bytes 4 0 ++ le_bytes 4 15 ++ le_bytes 4 0).

(** The same device when every request after the first fails. *)
Definition failing_EVIOCGBIT (ev len : Z) : ioctl_result :=
  if (ev =? 0) && (len =? EV_MAX) then IoctlOk 8 [10; 0; 0; 0; 0; 0; 0; 0]
  else IoctlErr 22.

Definition failing_EVIOCGABS (abs : Z) : ioctl_result := IoctlErr 22.

(** A frame in which one zero byte lies behind each array. *)
Definition sample_ev_adjacent (ev_type : Z) : mem := [0].
Definition sample_code_adjacent (ev_type ev_code : Z) : mem := [0].

(** A frame in which the byte behind [ev_bits] holds 1 (the slot of
    another variable), so that the probe of type 24 finds a set bit. *)
Definition stale_ev_adjacent (ev_type : Z) : mem := [1].

(** A device that reports type 24 alone (bit 0 of byte 3 of the type mask);
    every later request fails. *)
Definition type24_EVIOCGBIT (ev len : Z) : ioctl_result :=
  if (ev =? 0) && (len =? EV_MAX) then IoctlOk 8 [0; 0; 0; 1; 0; 0; 0; 0]
  else IoctlErr 22.

(** * Properties *)

(** ** Memory and integers *)

Lemma le_bytes_length (n : nat) (v : Z) : length (le_bytes n v) = n.
Proof.
  revert v; induction n as [|n IH]; intro v; simpl; [reflexivity|].
  now rewrite IH.
Qed.

Lemma le_unsigned_le_bytes (n : nat) (v : Z) :
  le_unsigned (le_bytes n v) = v mod 2 ^ (8 * Z.of_nat n).
Proof.
  revert v; induction n as [|n IH]; intro v.
  - simpl. now rewrite Z.mod_1_r.
  - cbn [le_bytes le_unsigned]. rewrite IH.
    replace (8 * Z.of_nat (S n)) with (8 + 8 * Z.of_nat n) by lia.
    rewrite Z.pow_add_r by lia.
    change (2 ^ 8) with 256.
    rewrite Z.rem_mul_r by lia. reflexivity.
Qed.

Lemma le_unsigned_roundtrip (n : nat) (v : Z) :
  0 <= v < 2 ^ (8 * Z.of_nat n) -> le_unsigned (le_bytes n v) = v.
Proof.
  intro H. rewrite le_unsigned_le_bytes. now apply Z.mod_small.
Qed.

Lemma le_signed_roundtrip (n : nat) (v : Z) :
  (0 < n)%nat ->
  - 2 ^ (8 * Z.of_nat n - 1) <= v < 2 ^ (8 * Z.of_nat n - 1) ->
  le_signed (le_bytes n v) = v.
Proof.
  intros Hn Hv. unfold le_signed.
  rewrite le_bytes_length, le_unsigned_le_bytes.
  set (w := 8 * Z.of_nat n) in *.
  assert (Hw : 2 ^ w = 2 * 2 ^ (w - 1)).
  { replace w with (1 + (w - 1)) at 1 by lia.
    rewrite Z.pow_add_r by lia. reflexivity. }
  assert (Hp : 0 < 2 ^ (w - 1)) by (apply Z.pow_pos_nonneg; lia).
  destruct (Z.neg_nonneg_cases v) as [Hneg | Hpos].
  - assert (E : v mod 2 ^ w = v + 2 ^ w).
    { symmetry. apply Z.mod_unique with (q := -1); lia. }
    rewrite E.
    destruct (Z.ltb_spec (v + 2 ^ w) (2 ^ (w - 1))); lia.
  - rewrite Z.mod_small by lia.
    destruct (Z.ltb_spec v (2 ^ (w - 1))); lia.
Qed.

Lemma load_app_prefix (a m : mem) :
  load (a ++ m) 0 (length a) = Some a.
Proof.
  unfold load. rewrite length_app.
  destruct (Nat.leb_spec (0 + length a) (length a + length m)); [|lia].
  simpl. rewrite firstn_app, Nat.sub_diag, firstn_all. simpl.
  now rewrite app_nil_r.
Qed.

Lemma load_app_skip (a m : mem) (off len : nat) :
  load (a ++ m) (length a + off) len = load m off len.
Proof.
  unfold load. rewrite length_app.
  rewrite skipn_app, skipn_all2 by lia.
  replace (length a + off - length a)%nat with off by lia. simpl.
  destruct (Nat.leb_spec (length a + off + len) (length a + length m));
    destruct (Nat.leb_spec (off + len) (length m)); try lia; reflexivity.
Qed.

Lemma load_poke (data stack : mem) (off len : nat) :
  (off + len <= length data)%nat ->
  load (poke data stack) off len = load data off len.
Proof.
  intro H. unfold load, poke. rewrite length_app.
  destruct (Nat.leb_spec (off + len) (length data + length (skipn (length data) stack)));
    [|lia].
  destruct (Nat.leb_spec (off + len) (length data)); [|lia].
  f_equal. rewrite skipn_app, firstn_app, length_skipn.
  replace (len - (length data - off))%nat with 0%nat by lia.
  simpl. now rewrite app_nil_r.
Qed.

Lemma load_some (m : mem) (off len : nat) :
  (off + len <= length m)%nat -> load m off len = Some (field m off len).
Proof.
  intro H. unfold load, field.
  destruct (Nat.leb_spec (off + len) (length m)); [reflexivity | lia].
Qed.

(** ** Counted loops *)

(** A loop that appends one item per round collects the items in the order
    of the rounds. *)
Lemma for_loop_collect {A : Type} (body : Z -> list A -> option (list A))
  (xs : list A) :
  forall (i : Z) (acc : list A),
    (forall k x, nth_error xs k = Some x ->
                 forall acc, body (i + Z.of_nat k) acc = Some (acc ++ [x])) ->
    for_loop (length xs) i body acc = Some (acc ++ xs).
Proof.
  induction xs as [|x xs IH]; intros i acc H; simpl.
  - now rewrite app_nil_r.
  - generalize (H 0%nat x eq_refl acc). rewrite Z.add_0_r.
    intros ->. rewrite IH.
    + now rewrite <- app_assoc.
    + intros k y Hk acc'. specialize (H (S k) y Hk acc').
      rewrite <- H. f_equal. lia.
Qed.

(** ** Bitmask probe *)

Lemma land_bit_nonzero (b k : Z) :
  0 <= k -> (Z.land b (Z.shiftl 1 k) <> 0 <-> Z.testbit b k = true).
Proof.
  intro Hk. rewrite Z.shiftl_1_l. split.
  - intro H. destruct (Z.testbit b k) eqn:E; [reflexivity|].
    exfalso. apply H. apply Z.bits_inj'. intros n Hn.
    rewrite Z.land_spec, Z.bits_0, Z.pow2_bits_eqb by lia.
    destruct (Z.eqb_spec k n) as [->|]; [now rewrite E|].
    now rewrite andb_false_r.
  - intros H E.
    assert (T : Z.testbit (Z.land b (2 ^ k)) k = true).
    { rewrite Z.land_spec, H, Z.pow2_bits_true; [reflexivity | lia]. }
    rewrite E, Z.bits_0 in T. discriminate.
Qed.

Lemma test_bit_in_bounds (b : mem) (i : Z) :
  0 <= i -> i / 8 < Z.of_nat (length b) ->
  exists byte_i,
    nth_error b (Z.to_nat (i / 8)) = Some byte_i /\
    test_bit b i = Some (Z.land byte_i (Z.shiftl 1 (i mod 8))).
Proof.
  intros Hi Hb. unfold test_bit.
  rewrite Z.quot_div_nonneg, Z.rem_mod_nonneg by lia.
  pose proof (Z.div_pos i 8 Hi ltac:(lia)) as Hd.
  pose proof (Z.mod_pos_bound i 8 ltac:(lia)) as Hm.
  destruct (Z.ltb_spec (i / 8) 0); [lia|].
  destruct (Z.ltb_spec (i mod 8) 0); [lia|]. simpl.
  destruct (nth_error b (Z.to_nat (i / 8))) as [x|] eqn:E.
  - exists x. split; reflexivity.
  - apply nth_error_None in E. lia.
Qed.

Lemma test_bit_out_of_bounds (b : mem) (i : Z) :
  0 <= i -> Z.of_nat (length b) <= i / 8 -> test_bit b i = None.
Proof.
  intros Hi Hb. unfold test_bit.
  rewrite Z.quot_div_nonneg by lia.
  destruct ((i / 8 <? 0) || (Z.rem i 8 <? 0)); [reflexivity|].
  destruct (nth_error b (Z.to_nat (i / 8))) eqn:E; [|reflexivity].
  assert (nth_error b (Z.to_nat (i / 8)) <> None) as N by congruence.
  apply nth_error_Some in N. lia.
Qed.

(** C2. For a byte buffer [b] and an index [i >= 0] with
    [i/8 < length b], [test_bit b i] is defined, is the mask
    [1 << (i % 8)] applied to byte [i/8], and is non-zero exactly when bit
    [i % 8] of that byte is set. *)
Theorem test_bit_little_endian (b : mem) (i : Z)
  (Hi : 0 <= i) (Hb : i / 8 < Z.of_nat (length b)) :
  exists byte_i,
    nth_error b (Z.to_nat (i / 8)) = Some byte_i /\
    test_bit b i = Some (Z.land byte_i (Z.shiftl 1 (i mod 8))) /\
    (Z.land byte_i (Z.shiftl 1 (i mod 8)) <> 0 <->
     Z.testbit byte_i (i mod 8) = true).
Proof.
  destruct (test_bit_in_bounds b Hi Hb) as (x & Hx & Ht).
  exists x. repeat split; try assumption.
  - apply land_bit_nonzero. apply Z.mod_pos_bound. lia.
  - apply land_bit_nonzero. apply Z.mod_pos_bound. lia.
Qed.

(** The buffer [[0b00000101]]: bit 2 is set. *)
Lemma test_bit_little_endian_witness :
  0 <= 2 /\ 2 / 8 < Z.of_nat (length [5]) /\
  exists byte_i,
    nth_error [5] (Z.to_nat (2 / 8)) = Some byte_i /\
    test_bit [5] 2 = Some (Z.land byte_i (Z.shiftl 1 (2 mod 8))) /\
    (Z.land byte_i (Z.shiftl 1 (2 mod 8)) <> 0 <->
     Z.testbit byte_i (2 mod 8) = true).
Proof.
  split; [lia|]. split; [vm_compute; reflexivity|].
  apply (@test_bit_little_endian [5] 2); [lia | vm_compute; reflexivity].
Defined.

(** The example of the specification, bit by bit. *)
Example test_bit_0b00000101 :
  map (test_bit [5]) [0; 1; 2; 3; 4; 5; 6; 7]
  = [Some 1; Some 0; Some 4; Some 0; Some 0; Some 0; Some 0; Some 0].
Proof. reflexivity. Qed.

(** ** Event wire codec *)

Lemma encode_event_length (ev : input_event) :
  length (encode_event ev) = sizeof_input_event.
Proof. reflexivity. Qed.

(** Reading the fields back from the layout gives the record. *)
Lemma decode_encode_event (ev : input_event) :
  event_in_range ev -> decode_input_event (encode_event ev) = ev.
Proof.
  intros (Hs & Hu & Ht & Hc & Hv). destruct ev as [s u t c v]. simpl in *.
  unfold decode_input_event.
  change (field (encode_event (mk_input_event s u t c v)) 0 8)
    with (le_bytes 8 s).
  change (field (encode_event (mk_input_event s u t c v)) 8 8)
    with (le_bytes 8 u).
  change (field (encode_event (mk_input_event s u t c v)) 16 2)
    with (le_bytes 2 t).
  change (field (encode_event (mk_input_event s u t c v)) 18 2)
    with (le_bytes 2 c).
  change (field (encode_event (mk_input_event s u t c v)) 20 4)
    with (le_bytes 4 v).
  rewrite !le_signed_roundtrip, !le_unsigned_roundtrip;
    try reflexivity; try assumption; lia.
Qed.

(** The [k]-th record of a stream of encoded records. *)
Lemma read_encoded_records (evs : list input_event) (rest : mem) :
  Forall event_in_range evs ->
  forall k ev, nth_error evs k = Some ev ->
    read_input_event (concat (map encode_event evs) ++ rest)
      (k * sizeof_input_event) = Some ev.
Proof.
  induction 1 as [|e evs He Hevs IH]; intros k ev Hk.
  - destruct k; discriminate.
  - cbn [concat map]. rewrite <- app_assoc. destruct k as [|k]; simpl in Hk.
    + injection Hk as <-. unfold read_input_event.
      rewrite <- (encode_event_length e) at 1.
      change (0 * length (encode_event e))%nat with 0%nat.
      rewrite load_app_prefix. now rewrite decode_encode_event.
    + specialize (IH k ev Hk). unfold read_input_event in *.
      replace (S k * sizeof_input_event)%nat
        with (length (encode_event e) + k * sizeof_input_event)%nat
        by (rewrite encode_event_length; lia).
      now rewrite load_app_skip.
Qed.

Lemma whole_records_length (data : mem) :
  length (whole_records data) = (length data / sizeof_input_event)%nat.
Proof. unfold whole_records. now rewrite length_map, length_seq. Qed.

Lemma whole_records_encoded (evs : list input_event) (stray : mem) :
  Forall event_in_range evs ->
  (length stray < sizeof_input_event)%nat ->
  whole_records (concat (map encode_event evs) ++ stray)
  = map event_tuple evs.
Proof.
  intros Hr Hs.
  assert (Hlen : length (concat (map encode_event evs))
                 = (length evs * sizeof_input_event)%nat).
  { clear. induction evs as [|e evs IH]; [reflexivity|].
    cbn [concat map]. rewrite length_app, IH, encode_event_length.
    simpl. lia. }
  apply nth_error_ext. intro k.
  unfold whole_records. rewrite !nth_error_map, nth_error_seq.
  rewrite length_app, Hlen.
  replace ((length evs * sizeof_input_event + length stray)
           / sizeof_input_event)%nat with (length evs).
  2:{ apply Nat.div_unique with (r := length stray); lia. }
  destruct (Nat.ltb_spec k (length evs)) as [Hk | Hk].
  - destruct (nth_error evs k) as [ev|] eqn:E.
    2:{ apply nth_error_None in E. lia. }
    simpl. do 2 f_equal.
    pose proof (read_encoded_records stray Hr k E) as R.
    unfold read_input_event in R. rewrite load_some in R.
    + now injection R.
    + rewrite length_app, Hlen. unfold sizeof_input_event in *. nia.
  - simpl. symmetry.
    destruct (nth_error evs k) eqn:E; [|reflexivity].
    assert (nth_error evs k <> None) as N by congruence.
    apply nth_error_Some in N. lia.
Qed.

Lemma device_read_many_ok (errno : Z) (stack data : mem) :
  device_read_many errno stack (ReadOk data)
  = Return (PyList (whole_records data)).
Proof.
  unfold device_read_many. cbn [read_ret read_out read_errno].
  destruct (Z.ltb_spec (Z.of_nat (length data)) 0); [lia|].
  unfold for_range.
  replace (Z.to_nat (Z.of_nat (length data) / Z.of_nat sizeof_input_event - 0))
    with (length (whole_records data)).
  2:{ rewrite whole_records_length, Z.sub_0_r, <- Nat2Z.inj_div, Nat2Z.id.
      reflexivity. }
  erewrite for_loop_collect; [reflexivity|].
  intros k x Hk acc. unfold whole_records in Hk.
  rewrite nth_error_map, nth_error_seq in Hk.
  destruct (Nat.ltb_spec k (length data / sizeof_input_event)) as [Hlt|];
    [|discriminate].
  simpl in Hk. injection Hk as <-.
  rewrite Z.add_0_l, Nat2Z.id. unfold read_input_event.
  pose proof (Nat.Div0.mul_div_le (length data) sizeof_input_event) as Hm.
  assert (Hin : (k * sizeof_input_event + sizeof_input_event
                 <= length data)%nat) by nia.
  rewrite load_poke, load_some by exact Hin. reflexivity.
Qed.

(** C3. [event_unpack] copies the record into a local struct and returns
    [None]: the bytes of an encoded event are not decoded into the tuple the
    round trip asks for. *)
Theorem event_unpack_discards_event (ev : input_event) :
  event_unpack (encode_event ev) = Return PyNone /\
  event_unpack (encode_event ev) <> Return (event_tuple ev).
Proof.
  assert (E : event_unpack (encode_event ev) = Return PyNone) by reflexivity.
  split; [exact E|]. rewrite E. discriminate.
Qed.

(** The round trip holds for the field reads [device_read] and
    [device_read_many] perform, boundary values of [value] included. *)
Example decode_encode_boundary_values :
  map (fun v => decode_input_event
                  (encode_event (mk_input_event 1700000000 999999 3 53 v)))
      [-1; 2147483647; -2147483648; 0]
  = map (mk_input_event 1700000000 999999 3 53)
      [-1; 2147483647; -2147483648; 0].
Proof. vm_compute. reflexivity. Qed.

(** C5. A [read] that delivers fewer bytes than one record never makes
    [device_read] signal anything: it returns a tuple, decoded from the
    bytes delivered followed by what the struct's stack slot held behind
    them.  With no bytes delivered the tuple is the stale content of the
    slot. *)
Theorem device_read_short_read_returns_tuple (errno : Z) (ev : input_event) :
  (forall stack data e,
      device_read errno stack (ReadOk data) <> IOError e) /\
  (forall stack data,
      length stack = sizeof_input_event ->
      (length data < sizeof_input_event)%nat ->
      device_read errno stack (ReadOk data)
      = Return (event_tuple
                  (decode_input_event (data ++ skipn (length data) stack)))) /\
  device_read errno (encode_event ev) (ReadOk [])
  = Return (event_tuple (decode_input_event (encode_event ev))) /\
  device_read errno (repeat 170 24) (ReadOk [1; 2; 3])
  = Return (PyTuple [PyLong (-6148914691247504895);
                     PyLong (-6148914691236517206);
                     PyLong 43690; PyLong 43690; PyLong (-1431655766)]).
Proof.
  split; [|split; [|split]].
  - intros stack data e. unfold device_read. cbn [read_ret].
    destruct (Z.ltb_spec (Z.of_nat (length data)) 0); [lia|].
    destruct (read_input_event _ 0); discriminate.
  - intros stack data Hs Hd. unfold device_read. cbn [read_ret read_out].
    destruct (Z.ltb_spec (Z.of_nat (length data)) 0); [lia|].
    unfold read_input_event, poke.
    assert (Hlen : length (data ++ skipn (length data) stack)
                   = sizeof_input_event).
    { rewrite length_app, length_skipn. lia. }
    rewrite load_some by (rewrite Hlen; simpl; lia).
    unfold field at 1. cbn [skipn]. rewrite <- Hlen at 1.
    now rewrite firstn_all.
  - reflexivity.
  - vm_compute. reflexivity.
Qed.

(** ** Counted loops, continued *)

Lemma seqZ_In (n : nat) :
  forall i j, In j (seqZ i n) <-> i <= j < i + Z.of_nat n.
Proof.
  induction n as [|n IH]; intros i j.
  - simpl. lia.
  - cbn [seqZ In]. rewrite IH. lia.
Qed.

Lemma seqZ_sorted (n : nat) : forall i, StronglySorted Z.lt (seqZ i n).
Proof.
  induction n as [|n IH]; intro i; cbn [seqZ]; constructor.
  - apply IH.
  - apply Forall_forall. intros j Hj. apply seqZ_In in Hj. lia.
Qed.

Lemma filter_sorted {A : Type} (R : A -> A -> Prop) (p : A -> bool)
  (l : list A) :
  StronglySorted R l -> StronglySorted R (filter p l).
Proof.
  induction 1 as [|x l Hl IH Hx]; simpl; [constructor|].
  destruct (p x); [|exact IH].
  constructor; [exact IH|].
  apply Forall_forall. intros y Hy. apply filter_In in Hy.
  rewrite Forall_forall in Hx. now apply Hx.
Qed.

(** A loop whose body, where defined, is the function [step]: if the loop
    ends, it has folded [step] over the values of the counter. *)
Lemma for_loop_fold {S : Type} (body : Z -> S -> option S)
  (step : Z -> S -> S) (n : nat) :
  (forall j s r, body j s = Some r -> r = step j s) ->
  forall i s s',
    for_loop n i body s = Some s' ->
    s' = fold_left (fun s j => step j s) (seqZ i n) s.
Proof.
  intro Hstep. induction n as [|n IH]; intros i s s' H; simpl in *.
  - now injection H.
  - destruct (body i s) as [r|] eqn:E; [|discriminate].
    apply Hstep in E. subst r. now apply IH.
Qed.

(** A loop whose body is defined at every value of the counter ends. *)
Lemma for_loop_defined {S : Type} (body : Z -> S -> option S) (n : nat) :
  forall i s,
    (forall j s, In j (seqZ i n) -> body j s <> None) ->
    exists s', for_loop n i body s = Some s'.
Proof.
  induction n as [|n IH]; intros i s H; simpl.
  - now exists s.
  - destruct (body i s) as [r|] eqn:E.
    + apply IH. intros j s0 Hj. apply H. now right.
    + exfalso. apply (H i s); [now left | exact E].
Qed.

(** A loop whose body is undefined at one value of the counter has no
    defined result. *)
Lemma for_loop_undefined {S : Type} (body : Z -> S -> option S) (n : nat) :
  forall i s j,
    In j (seqZ i n) -> (forall s, body j s = None) ->
    for_loop n i body s = None.
Proof.
  induction n as [|n IH]; intros i s j Hj Hnone; simpl in *.
  - contradiction.
  - destruct (body i s) as [r|] eqn:E; [|reflexivity].
    destruct Hj as [-> | Hj]; [congruence|].
    now apply IH with (j := j).
Qed.

Lemma fold_collect {A : Type} (p : Z -> bool) (g : Z -> A) (l : list Z) :
  forall acc,
    fold_left (fun acc j => if p j then acc ++ [g j] else acc) l acc
    = acc ++ map g (filter p l).
Proof.
  induction l as [|x l IH]; intro acc; simpl.
  - now rewrite app_nil_r.
  - rewrite IH. destruct (p x); [|reflexivity].
    simpl. now rewrite <- app_assoc.
Qed.

(** ** The dict *)

Lemma PyDict_SetItem_fresh (d : list (Z * PyObject)) (k : Z) (v : PyObject) :
  (forall k' v', In (k', v') d -> k' <> k) ->
  PyDict_SetItem d k v = d ++ [(k, v)].
Proof.
  induction d as [|[k0 v0] d IH]; intro H; simpl; [reflexivity|].
  destruct (Z.eqb_spec k0 k) as [->|Hne].
  - exfalso. apply (H k v0); [now left | reflexivity].
  - f_equal. apply IH. intros k' v' Hin. apply (H k' v'). now right.
Qed.

(** Setting keys in ascending order, all above the keys present, appends. *)
Lemma fold_dict (p : Z -> bool) (g : Z -> PyObject) (l : list Z) :
  StronglySorted Z.lt l ->
  forall d,
    (forall k v j, In (k, v) d -> In j l -> k < j) ->
    fold_left (fun d j => if p j then PyDict_SetItem d j (g j) else d) l d
    = d ++ map (fun j => (j, g j)) (filter p l).
Proof.
  induction 1 as [|x l Hl IH Hx]; intros d Hd; simpl.
  - now rewrite app_nil_r.
  - rewrite Forall_forall in Hx. destruct (p x).
    + rewrite PyDict_SetItem_fresh.
      * rewrite IH; [simpl; now rewrite <- app_assoc|].
        intros k v j Hin Hj. apply in_app_or in Hin. destruct Hin as [Hin|Hin].
        -- apply (Hd k v j Hin). now right.
        -- destruct Hin as [Hin|[]]. injection Hin as <- <-. now apply Hx.
      * intros k' v' Hin. specialize (Hd k' v' x Hin (or_introl eq_refl)). lia.
    + apply IH. intros k v j Hin Hj. apply (Hd k v j Hin). now right.
Qed.

(** ** Capability enumerator *)

Lemma filled_length (n : nat) (out : mem) : length (filled n out) = n.
Proof.
  unfold filled, poke, zeroed.
  rewrite length_firstn, length_app, length_skipn, repeat_length. lia.
Qed.

(** A probe of an [n]-byte array at a bit of byte [n] or below is defined as
    soon as one more byte can be read behind the array. *)
Lemma test_bit_adjacent (n : nat) (out adj : mem) (j : Z) :
  0 <= j -> j / 8 <= Z.of_nat n -> adj <> [] ->
  test_bit (filled n out ++ adj) j <> None.
Proof.
  intros Hj Hn Hadj.
  destruct (@test_bit_in_bounds (filled n out ++ adj) j Hj) as (x & _ & E).
  - rewrite length_app, filled_length.
    destruct adj; [contradiction | simpl; lia].
  - rewrite E. discriminate.
Qed.

Section CapabilityProofs.

Variable EVIOCGBIT : Z -> Z -> ioctl_result.
Variable EVIOCGABS : Z -> ioctl_result.
Variable ev_adjacent : Z -> mem.
Variable code_adjacent : Z -> Z -> mem.

Local Abbreviation code_body' := (code_body EVIOCGABS code_adjacent).
Local Abbreviation type_body' :=
  (type_body EVIOCGBIT EVIOCGABS ev_adjacent code_adjacent).
Local Abbreviation entry' := (capability_entry EVIOCGABS).
Local Abbreviation codes' := (probed_codes EVIOCGBIT code_adjacent).
Local Abbreviation types' := (probed_types EVIOCGBIT ev_adjacent).
Local Abbreviation map' :=
  (capability_map EVIOCGBIT EVIOCGABS ev_adjacent code_adjacent).
Local Abbreviation run' :=
  (ioctl_capabilities EVIOCGBIT EVIOCGABS ev_adjacent code_adjacent).

Lemma code_body_step (t : Z) (code_bits : mem) (c : Z)
  (acc r : list PyObject) :
  code_body' t code_bits c acc = Some r ->
  r = if code_probed code_adjacent t code_bits c
      then acc ++ [entry' t c] else acc.
Proof.
  unfold code_body, code_probed, bit_set, capability_entry.
  destruct (test_bit _ c) as [b|]; [|discriminate].
  destruct (b =? 0); simpl.
  - now intros [= <-].
  - destruct (t =? EV_ABS); now intros [= <-].
Qed.

Lemma code_loop_result (t : Z) (r : list PyObject) :
  for_range 0 KEY_MAX
    (code_body' t
       (filled sizeof_code_bits (ioctl_out (EVIOCGBIT t KEY_MAX)))) [] = Some r ->
  r = map (entry' t) (codes' t).
Proof.
  unfold for_range. intro H.
  apply for_loop_fold with
    (step := fun c acc =>
               if code_probed code_adjacent t
                    (filled sizeof_code_bits (ioctl_out (EVIOCGBIT t KEY_MAX))) c
               then acc ++ [entry' t c] else acc) in H.
  - rewrite fold_collect in H. rewrite Z.sub_0_r in H. exact H.
  - intros j s r0. apply code_body_step.
Qed.

Lemma type_body_step (ev_bits : mem) (t : Z) (caps r : list (Z * PyObject)) :
  type_body' ev_bits t caps = Some r ->
  r = if type_probed ev_adjacent ev_bits t
      then PyDict_SetItem caps t (PyList (map (entry' t) (codes' t)))
      else caps.
Proof.
  unfold type_body, type_probed, bit_set.
  destruct (test_bit _ t) as [b|]; [|discriminate].
  destruct (b =? 0); simpl.
  - now intros [= <-].
  - destruct (for_range 0 KEY_MAX _ []) as [ec|] eqn:E; [|discriminate].
    apply code_loop_result in E. subst ec. now intros [= <-].
Qed.

(** The enumerator, when it returns, returns the capability map. *)
Lemma ioctl_capabilities_result (errno : Z) (v : PyObject) :
  run' errno = Return v -> v = PyDict map'.
Proof.
  unfold ioctl_capabilities.
  destruct (ioctl_ret (EVIOCGBIT 0 EV_MAX) <? 0); [discriminate|].
  destruct (for_range 0 EV_MAX _ []) as [caps|] eqn:E; [|discriminate].
  intros [= <-]. f_equal. unfold for_range in E.
  apply for_loop_fold with
    (step := fun t caps =>
       if type_probed ev_adjacent
            (filled sizeof_ev_bits (ioctl_out (EVIOCGBIT 0 EV_MAX))) t
       then PyDict_SetItem caps t (PyList (map (entry' t) (codes' t)))
       else caps) in E.
  - rewrite Z.sub_0_r in E. rewrite E.
    rewrite fold_dict with
      (g := fun t => PyList (map (entry' t) (codes' t))).
    + reflexivity.
    + apply seqZ_sorted.
    + intros k v j [].
  - intros j s r. apply type_body_step.
Qed.

Hypothesis ev_adjacent_readable : forall t, ev_adjacent t <> [].
Hypothesis code_adjacent_readable : forall t c, code_adjacent t c <> [].

Lemma code_loop_defined (t : Z) (code_bits_out : mem) :
  exists r,
    for_range 0 KEY_MAX
      (code_body' t (filled sizeof_code_bits code_bits_out)) [] = Some r.
Proof.
  unfold for_range. apply for_loop_defined.
  intros j s Hj. apply seqZ_In in Hj. unfold code_body.
  destruct (test_bit _ j) as [b|] eqn:E.
  - destruct (b =? 0); [discriminate|].
    destruct (t =? EV_ABS); discriminate.
  - exfalso. revert E. apply test_bit_adjacent.
    + lia.
    + assert (j < KEY_MAX) by lia. unfold KEY_MAX in *.
      change (Z.of_nat sizeof_code_bits) with 95.
      assert (j / 8 < 96) by (apply Z.div_lt_upper_bound; lia). lia.
    + apply code_adjacent_readable.
Qed.

Lemma type_loop_defined (ev_bits_out : mem) :
  exists caps,
    for_range 0 EV_MAX (type_body' (filled sizeof_ev_bits ev_bits_out)) []
    = Some caps.
Proof.
  unfold for_range. apply for_loop_defined.
  intros j s Hj. apply seqZ_In in Hj. unfold type_body.
  destruct (test_bit _ j) as [b|] eqn:E.
  - destruct (b =? 0); [discriminate|].
    destruct (code_loop_defined j (ioctl_out (EVIOCGBIT j KEY_MAX)))
      as (r & ->).
    discriminate.
  - exfalso. revert E. apply test_bit_adjacent.
    + lia.
    + assert (j < EV_MAX) by lia. unfold EV_MAX in *.
      change (Z.of_nat sizeof_ev_bits) with 3.
      assert (j / 8 < 4) by (apply Z.div_lt_upper_bound; lia). lia.
    + apply ev_adjacent_readable.
Qed.

(** With a byte to read behind each array, the enumerator returns the
    capability map whenever the first request does not fail. *)
Lemma ioctl_capabilities_returns (errno : Z) :
  0 <= ioctl_ret (EVIOCGBIT 0 EV_MAX) ->
  run' errno = Return (PyDict map').
Proof.
  intro Hret.
  destruct (type_loop_defined (ioctl_out (EVIOCGBIT 0 EV_MAX))) as (caps & E).
  assert (R : run' errno = Return (PyDict caps)).
  { unfold ioctl_capabilities.
    destruct (Z.ltb_spec (ioctl_ret (EVIOCGBIT 0 EV_MAX)) 0); [lia|].
    now rewrite E. }
  rewrite R. f_equal. now apply ioctl_capabilities_result with (errno := errno).
Qed.

End CapabilityProofs.

(** C7. Error policy of the enumerator.  A failing first request raises
    its OS error.  When the first request does not fail no error is raised,
    whatever the later requests answer; and with a byte to read behind each
    array the enumerator then returns the map. *)
Theorem ioctl_capabilities_error_policy
  (EVIOCGBIT : Z -> Z -> ioctl_result) (EVIOCGABS : Z -> ioctl_result)
  (ev_adjacent : Z -> mem) (code_adjacent : Z -> Z -> mem) (errno : Z) :
  (forall e, EVIOCGBIT 0 EV_MAX = IoctlErr e ->
             ioctl_capabilities EVIOCGBIT EVIOCGABS ev_adjacent code_adjacent
               errno = IOError e) /\
  (forall n out, EVIOCGBIT 0 EV_MAX = IoctlOk n out ->
                 forall e,
                   ioctl_capabilities EVIOCGBIT EVIOCGABS ev_adjacent
                     code_adjacent errno <> IOError e) /\
  ((forall t, ev_adjacent t <> []) ->
   (forall t c, code_adjacent t c <> []) ->
   forall n out, EVIOCGBIT 0 EV_MAX = IoctlOk n out ->
     ioctl_capabilities EVIOCGBIT EVIOCGABS ev_adjacent code_adjacent errno
     = Return (PyDict (capability_map EVIOCGBIT EVIOCGABS ev_adjacent
                         code_adjacent))).
Proof.
  split; [|split].
  - intros e He. unfold ioctl_capabilities. rewrite He. reflexivity.
  - intros n out Hok e. unfold ioctl_capabilities. rewrite Hok.
    cbn [ioctl_ret ioctl_out].
    destruct (Z.ltb_spec (Z.of_nat n) 0); [lia|].
    destruct (for_range 0 EV_MAX _ []); discriminate.
  - intros Hev Hcode n out Hok.
    apply ioctl_capabilities_returns; try assumption.
    rewrite Hok. simpl. lia.
Qed.

(** The sample device with every request after the first failing: the
    enumeration still returns a map, its lists empty. *)
Lemma ioctl_capabilities_error_policy_witness :
  ioctl_capabilities failing_EVIOCGBIT failing_EVIOCGABS
    sample_ev_adjacent sample_code_adjacent 0
  = Return (PyDict (capability_map failing_EVIOCGBIT failing_EVIOCGABS
                      sample_ev_adjacent sample_code_adjacent)) /\
  capability_map failing_EVIOCGBIT failing_EVIOCGABS
    sample_ev_adjacent sample_code_adjacent
  = [(1, PyList []); (3, PyList [])].
Proof.
  split; [|vm_compute; reflexivity].
  apply (proj2 (proj2
           (ioctl_capabilities_error_policy
              failing_EVIOCGBIT failing_EVIOCGABS
              sample_ev_adjacent sample_code_adjacent 0)))
    with (n := 8%nat) (out := [10; 0; 0; 0; 0; 0; 0; 0]).
  - intros t; discriminate.
  - intros t c; discriminate.
  - reflexivity.
Defined.

(** C1. The arrays of the enumerator hold [EV_MAX/8] and [KEY_MAX/8] bytes,
    the quotients rounded down (3 and 95), and the scans run to bits
    [EV_MAX - 1] and [KEY_MAX - 1]: the probes of types 24 to 30 and of
    codes 760 to 766 read the byte behind the array.  When nothing behind
    an array may be read, every enumeration whose first request succeeds is
    undefined. *)
Theorem ioctl_capabilities_probes_past_buffers :
  sizeof_ev_bits = 3%nat /\ sizeof_code_bits = 95%nat /\
  (forall out t, 24 <= t < EV_MAX ->
                 ~ (t / 8 < Z.of_nat (length (filled sizeof_ev_bits out))) /\
                 test_bit (filled sizeof_ev_bits out) t = None) /\
  (forall out c, 760 <= c < KEY_MAX ->
                 ~ (c / 8 < Z.of_nat (length (filled sizeof_code_bits out))) /\
                 test_bit (filled sizeof_code_bits out) c = None) /\
  (forall EVIOCGBIT EVIOCGABS errno n out,
      EVIOCGBIT 0 EV_MAX = IoctlOk n out ->
      ioctl_capabilities EVIOCGBIT EVIOCGABS (fun _ => []) (fun _ _ => [])
        errno = Undefined).
Proof.
  split; [reflexivity|]. split; [reflexivity|].
  split; [|split].
  - intros out t Ht. rewrite filled_length.
    change (Z.of_nat sizeof_ev_bits) with 3.
    assert (3 <= t / 8) by (apply Z.div_le_lower_bound; lia).
    split; [lia|].
    apply test_bit_out_of_bounds; [lia|].
    rewrite filled_length. change (Z.of_nat sizeof_ev_bits) with 3. lia.
  - intros out c Hc. rewrite filled_length.
    change (Z.of_nat sizeof_code_bits) with 95.
    assert (95 <= c / 8) by (apply Z.div_le_lower_bound; lia).
    split; [lia|].
    apply test_bit_out_of_bounds; [lia|].
    rewrite filled_length. change (Z.of_nat sizeof_code_bits) with 95. lia.
  - intros EVIOCGBIT EVIOCGABS errno n out Hok.
    unfold ioctl_capabilities. rewrite Hok. cbn [ioctl_ret ioctl_out].
    destruct (Z.ltb_spec (Z.of_nat n) 0); [lia|].
    unfold for_range. rewrite for_loop_undefined with (j := 24);
      [reflexivity | apply seqZ_In; unfold EV_MAX; simpl; lia |].
    intro s. unfold type_body. rewrite app_nil_r.
    rewrite test_bit_out_of_bounds; [reflexivity | lia |].
    rewrite filled_length. vm_compute. discriminate.
Qed.

(** The sibling [get_sw_led_snd] rounds its array up to [(max+7)/8] bytes:
    none of its probes leaves the array. *)
Lemma sw_led_snd_scan_in_bounds (max : Z) (out : mem) :
  0 <= max ->
  sw_led_snd_scan max (filled (Z.to_nat (Z.quot (max + 7) 8)) out) <> None.
Proof.
  intro Hmax. unfold sw_led_snd_scan, for_range.
  destruct (for_loop_defined
              (fun i res =>
                 match test_bit (filled (Z.to_nat (Z.quot (max + 7) 8)) out) i
                 with
                 | Some b => if b =? 0 then Some res
                             else Some (res ++ [PyLong i])
                 | None => None
                 end) (Z.to_nat (max - 0)) 0 (@nil PyObject)) as (r & ->);
    [|discriminate].
  intros j s Hj. apply seqZ_In in Hj.
  destruct (@test_bit_in_bounds
              (filled (Z.to_nat (Z.quot (max + 7) 8)) out) j) as (x & _ & ->).
  - lia.
  - rewrite filled_length, Z.quot_div_nonneg by lia.
    assert (j / 8 < (max + 7) / 8) by (Z.div_mod_to_equations; lia).
    lia.
  - destruct (_ =? 0); discriminate.
Qed.

Lemma get_sw_led_snd_defined (evtype : Z) (r : ioctl_result) :
  get_sw_led_snd evtype r <> Undefined.
Proof.
  unfold get_sw_led_snd.
  destruct (sw_led_snd_max evtype) as [max|] eqn:E; [|discriminate].
  assert (Hmax : 0 <= max).
  { unfold sw_led_snd_max in E.
    destruct (evtype =? EV_LED); [injection E as <-; unfold LED_MAX; lia|].
    destruct (evtype =? EV_SW); [injection E as <-; unfold SW_MAX; lia|].
    destruct (evtype =? EV_SND); [injection E as <-; unfold SND_MAX; lia|].
    discriminate. }
  pose proof (@sw_led_snd_scan_in_bounds max (ioctl_out r) Hmax) as H.
  destruct (sw_led_snd_scan max _); [discriminate | contradiction].
Qed.

(** ** Device identity *)

Lemma c_string_terminated (s rest : mem) :
  Forall (fun b => b <> 0) s -> c_string (s ++ 0 :: rest) = Some s.
Proof.
  induction 1 as [|b s Hb Hs IH]; simpl; [reflexivity|].
  destruct (Z.eqb_spec b 0); [contradiction|]. now rewrite IH.
Qed.

Lemma name_read_back (name name_stack : mem) :
  Forall (fun b => b <> 0) name ->
  (length name < Z.to_nat MAX_NAME_SIZE)%nat ->
  c_string (firstn (Z.to_nat MAX_NAME_SIZE) (poke (name ++ [0]) name_stack))
  = Some name.
Proof.
  intros Hnz Hlen. unfold poke.
  change (Z.to_nat MAX_NAME_SIZE) with 256%nat in *.
  rewrite firstn_app, firstn_all2 by (rewrite length_app; simpl; lia).
  rewrite <- app_assoc. simpl. now apply c_string_terminated.
Qed.

(** ** Control queries and error signalling *)

(** Autorepeat-set does not signal a failing request: the status [-1] comes
    back as the result of the call.  Nor does the state enumeration, which
    returns the empty list, nor the capability enumerator for its requests
    after the first, which returns the map with empty lists. *)
Lemma ioctl_EVIOCSREP_no_fault :
  ioctl_EVIOCSREP 250 33 (IoctlErr 22) = Return (PyLong (-1)) /\
  ~ faults_on_error (ioctl_EVIOCSREP 250 33) /\
  get_sw_led_snd EV_LED (IoctlErr 22) = Return (PyList []) /\
  ~ faults_on_error (get_sw_led_snd EV_LED) /\
  ioctl_capabilities failing_EVIOCGBIT failing_EVIOCGABS
    sample_ev_adjacent sample_code_adjacent 0
  = Return (PyDict [(1, PyList []); (3, PyList [])]).
Proof.
  split; [reflexivity|].
  split; [intro H; specialize (H 22); discriminate|].
  split; [vm_compute; reflexivity|].
  split; [intro H; specialize (H 22); vm_compute in H; discriminate|].
  vm_compute. reflexivity.
Qed.

(** The protocol-version query does not signal a failing request either:
    the integer it returns is what the slot of [res] held. *)
Lemma ioctl_EVIOCGVERSION_no_fault :
  ~ faults_on_error (ioctl_EVIOCGVERSION [239; 190; 173; 222]) /\
  forall e, ioctl_EVIOCGVERSION [239; 190; 173; 222] (IoctlErr e)
            = Return (PyLong (-559038737)).
Proof.
  split; [|reflexivity]. intro H. specialize (H 22). discriminate.
Qed.

(** ** Force-feedback writes *)

(** The record handed to [write]: the first sixteen bytes, the timestamp,
    are those of the stack slot; the last eight are the three fields. *)
Lemma ff_write_record (errno : Z) (stack : mem) (t c v : Z)
  (w : write_result) :
  length stack = sizeof_input_event ->
  fst (ff_write errno (ff_event stack t c v) w)
  = firstn 16 stack ++ le_bytes 2 t ++ le_bytes 2 c ++ le_bytes 4 v.
Proof.
  intro H. unfold sizeof_input_event in H.
  do 25 (destruct stack as [|? stack]; try discriminate H).
  reflexivity.
Qed.

(** C10. The records the three writers hand to [write] are not determined
    by the arguments: with the same arguments and two contents of the stack
    slot that differ in the first sixteen bytes the records differ, in
    their timestamp bytes. *)
Theorem ff_writes_depend_on_stack :
  (forall errno fxid ntimes w stack1 stack2,
      length stack1 = sizeof_input_event ->
      length stack2 = sizeof_input_event ->
      firstn 16 stack1 <> firstn 16 stack2 ->
      fst (play_FF_EFFECT errno stack1 fxid ntimes w)
      <> fst (play_FF_EFFECT errno stack2 fxid ntimes w)) /\
  fst (play_FF_EFFECT 0 (zeroed 24) 1 1 (WriteOk 24))
  <> fst (play_FF_EFFECT 0 (repeat 170 24) 1 1 (WriteOk 24)) /\
  fst (set_FF_GAIN 0 (zeroed 24) 65535 (WriteOk 24))
  <> fst (set_FF_GAIN 0 (repeat 170 24) 65535 (WriteOk 24)) /\
  fst (set_FF_AUTOCENTER 0 (zeroed 24) 65535 (WriteOk 24))
  <> fst (set_FF_AUTOCENTER 0 (repeat 170 24) 65535 (WriteOk 24)) /\
  fst (play_FF_EFFECT 0 (repeat 170 24) 1 1 (WriteOk 24))
  = repeat 170 16 ++ [21; 0; 1; 0; 1; 0; 0; 0].
Proof.
  split.
  - intros errno fxid ntimes w stack1 stack2 H1 H2 Hne E.
    unfold play_FF_EFFECT in E.
    rewrite !ff_write_record in E by assumption.
    apply app_inv_tail in E. contradiction.
  - repeat split; vm_compute; discriminate || reflexivity.
Qed.

(** The fields the writers assign are what the last eight bytes of the
    record hold: type [EV_FF], the code and the value, whatever the stack
    held. *)
Theorem ff_writes_fields_determined (errno : Z) (stack : mem)
  (w : write_result) (H : length stack = sizeof_input_event) :
  (forall fxid ntimes,
      skipn 16 (fst (play_FF_EFFECT errno stack fxid ntimes w))
      = le_bytes 2 EV_FF ++ le_bytes 2 fxid ++ le_bytes 4 ntimes) /\
  (forall gain,
      skipn 16 (fst (set_FF_GAIN errno stack gain w))
      = le_bytes 2 EV_FF ++ le_bytes 2 FF_GAIN ++ le_bytes 4 gain) /\
  (forall force,
      skipn 16 (fst (set_FF_AUTOCENTER errno stack force w))
      = le_bytes 2 EV_FF ++ le_bytes 2 FF_AUTOCENTER ++ le_bytes 4 force).
Proof.
  assert (L : length (firstn 16 stack) = 16%nat).
  { rewrite length_firstn, H. reflexivity. }
  repeat split; intros;
    unfold play_FF_EFFECT, set_FF_GAIN, set_FF_AUTOCENTER;
    rewrite ff_write_record by assumption;
    rewrite skipn_app, L, skipn_all2 by lia; reflexivity.
Qed.

Lemma ff_writes_fields_determined_witness :
  skipn 16 (fst (play_FF_EFFECT 0 (repeat 170 24) 2 3 (WriteOk 24)))
  = [21; 0; 2; 0; 3; 0; 0; 0].
Proof.
  apply (proj1 (@ff_writes_fields_determined 0 (repeat 170 24) (WriteOk 24)
                  eq_refl)).
Defined.

(** ** Further properties *)

(** A [read] that delivers one whole record makes [device_read] return its
    five fields: the field reads invert the record layout. *)
Theorem device_read_whole_record (errno : Z) (stack : mem)
  (ev : input_event) (H : event_in_range ev) :
  device_read errno stack (ReadOk (encode_event ev))
  = Return (event_tuple ev).
Proof.
  unfold device_read. cbn [read_ret read_out].
  destruct (Z.ltb_spec (Z.of_nat (length (encode_event ev))) 0); [lia|].
  unfold read_input_event.
  rewrite load_poke by (rewrite encode_event_length; simpl; lia).
  rewrite <- (encode_event_length ev) at 1.
  rewrite <- (app_nil_r (encode_event ev)) at 1.
  rewrite load_app_prefix. now rewrite decode_encode_event.
Qed.

Lemma device_read_whole_record_witness :
  device_read 0 (repeat 170 24)
    (ReadOk (encode_event (mk_input_event 1700000000 999999 3 53 (-1))))
  = Return (PyTuple [PyLong 1700000000; PyLong 999999; PyLong 3; PyLong 53;
                     PyLong (-1)]) /\
  device_read 0 (repeat 170 24)
    (ReadOk (encode_event (mk_input_event 1700000000 999999 3 53 2147483647)))
  = Return (PyTuple [PyLong 1700000000; PyLong 999999; PyLong 3; PyLong 53;
                     PyLong 2147483647]).
Proof.
  split.
  - apply (@device_read_whole_record 0 (repeat 170 24)
             (mk_input_event 1700000000 999999 3 53 (-1))).
    unfold event_in_range; cbn [tv_sec tv_usec type code value]; lia.
  - apply (@device_read_whole_record 0 (repeat 170 24)
             (mk_input_event 1700000000 999999 3 53 2147483647)).
    unfold event_in_range; cbn [tv_sec tv_usec type code value]; lia.
Defined.

(** *** Integers in memory, continued *)

Lemma le_signed_le_bytes (n : nat) (v : Z) :
  le_signed (le_bytes n v)
  = if v mod 2 ^ (8 * Z.of_nat n) <? 2 ^ (8 * Z.of_nat n - 1)
    then v mod 2 ^ (8 * Z.of_nat n)
    else v mod 2 ^ (8 * Z.of_nat n) - 2 ^ (8 * Z.of_nat n).
Proof.
  unfold le_signed. now rewrite le_bytes_length, le_unsigned_le_bytes.
Qed.

(** Only the low [8 n] bits of a value reach its [n] bytes. *)
Lemma le_bytes_wrap (n : nat) :
  forall v k, le_bytes n (v + k * 2 ^ (8 * Z.of_nat n)) = le_bytes n v.
Proof.
  induction n as [|n IH]; intros v k; [reflexivity|].
  cbn [le_bytes].
  replace (8 * Z.of_nat (S n)) with (8 * Z.of_nat n + 8) by lia.
  rewrite Z.pow_add_r by lia. change (2 ^ 8) with 256.
  rewrite Z.mul_assoc, Z.mod_add, Z.div_add by lia.
  now rewrite IH.
Qed.

Lemma land_bit_cases (b k : Z) :
  0 <= k ->
  Z.land b (Z.shiftl 1 k) = 0 \/ Z.land b (Z.shiftl 1 k) = 2 ^ k.
Proof.
  intro Hk. rewrite Z.shiftl_1_l.
  destruct (Z.testbit b k) eqn:E; [right | left];
    apply Z.bits_inj'; intros n Hn;
    rewrite Z.land_spec, Z.pow2_bits_eqb by lia.
  - destruct (Z.eqb_spec k n) as [->|]; [now rewrite E|].
    now rewrite andb_false_r.
  - rewrite Z.bits_0. destruct (Z.eqb_spec k n) as [->|]; [now rewrite E|].
    now rewrite andb_false_r.
Qed.

(** *** Bitmask probe *)

(** [test_bit] has a defined result exactly for the indices
    [0 <= i < 8 * length b]; a negative index is undefined like one behind
    the buffer.  The result is not normalised to 0 or 1: it is 0 or the
    mask [1 << (i % 8)] itself. *)
Theorem test_bit_defined_range (b : mem) (i : Z) :
  (test_bit b i <> None <-> 0 <= i < 8 * Z.of_nat (length b)) /\
  (forall r, test_bit b i = Some r -> r = 0 \/ r = 2 ^ (i mod 8)).
Proof.
  destruct (Z.neg_nonneg_cases i) as [Hneg | Hpos].
  - assert (E : test_bit b i = None).
    { unfold test_bit.
      pose proof (Z.quot_rem' i 8) as Hq.
      pose proof (Z.rem_bound_pos_neg i 8 ltac:(lia) ltac:(lia)) as Hr.
      destruct (Z.ltb_spec (Z.quot i 8) 0); [reflexivity|].
      destruct (Z.ltb_spec (Z.rem i 8) 0); [reflexivity|]. lia. }
    rewrite E. split; [|discriminate].
    split; [congruence | lia].
  - destruct (Z_lt_le_dec (i / 8) (Z.of_nat (length b))) as [Hin | Hout].
    + destruct (test_bit_in_bounds b Hpos Hin) as (x & _ & E). rewrite E.
      split.
      * split; [|discriminate]. intros _.
        pose proof (Z.div_mod i 8 ltac:(lia)).
        pose proof (Z.mod_pos_bound i 8 ltac:(lia)). lia.
      * intros r [= <-]. apply land_bit_cases.
        apply Z.mod_pos_bound. lia.
    + rewrite (test_bit_out_of_bounds b Hpos Hout).
      split; [|discriminate].
      split; [congruence|]. intros [_ H].
      assert (i / 8 < Z.of_nat (length b))
        by (apply Z.div_lt_upper_bound; lia). lia.
Qed.

(** *** Unpack *)

(** [event_unpack] copies [sizeof(struct input_event)] bytes whatever the
    length of its argument: the copy stays inside the argument's buffer
    (the bytes and their terminator) exactly when the argument has at
    least 23 bytes. *)
Theorem event_unpack_copy_bounds (data : mem) :
  ((23 <= length data)%nat -> event_unpack data = Return PyNone) /\
  ((length data < 23)%nat -> event_unpack data = Undefined).
Proof.
  unfold event_unpack, load, sizeof_input_event.
  rewrite length_app. cbn [length].
  split; intro H;
    destruct (Nat.leb_spec (0 + 24) (length data + 1)); (reflexivity || lia).
Qed.

(** *** State enumeration *)

Lemma filter_none {A : Type} (p : A -> bool) (l : list A) :
  (forall x, In x l -> p x = false) -> filter p l = [].
Proof.
  induction l as [|x l IH]; intro H; simpl; [reflexivity|].
  rewrite (H x (or_introl eq_refl)). apply IH.
  intros y Hy. apply H. now right.
Qed.

Lemma bit_set_zeroed (n : nat) (i : Z) : bit_set (zeroed n) i = false.
Proof.
  unfold bit_set, test_bit.
  destruct ((Z.quot i 8 <? 0) || (Z.rem i 8 <? 0)); [reflexivity|].
  destruct (nth_error (zeroed n) (Z.to_nat (Z.quot i 8))) as [b|] eqn:E;
    [|reflexivity].
  apply nth_error_In, repeat_spec in E. subst b.
  now rewrite Z.land_0_l.
Qed.

Lemma filled_nil (n : nat) : filled n [] = zeroed n.
Proof.
  unfold filled, poke, zeroed. simpl.
  apply firstn_all2. now rewrite repeat_length.
Qed.

Lemma sw_led_snd_max_nonneg (evtype max : Z) :
  sw_led_snd_max evtype = Some max -> 0 <= max.
Proof.
  unfold sw_led_snd_max.
  destruct (evtype =? EV_LED); [intros [= <-]; unfold LED_MAX; lia|].
  destruct (evtype =? EV_SW); [intros [= <-]; unfold SW_MAX; lia|].
  destruct (evtype =? EV_SND); [intros [= <-]; unfold SND_MAX; lia|].
  discriminate.
Qed.

(** For a recognised category the result of [get_sw_led_snd] is the list
    of the indices below the category's maximum whose bit is set in the
    kernel's answer, in ascending order; the index [max] itself is never
    listed.  A failing request is not signalled: it gives the empty list. *)
Theorem get_sw_led_snd_set_bits (evtype max : Z) (r : ioctl_result)
  (H : sw_led_snd_max evtype = Some max) :
  get_sw_led_snd evtype r
  = Return (PyList
              (map PyLong
                 (filter (bit_set (filled (Z.to_nat (Z.quot (max + 7) 8))
                                     (ioctl_out r)))
                         (indices max)))) /\
  StronglySorted Z.lt
    (filter (bit_set (filled (Z.to_nat (Z.quot (max + 7) 8)) (ioctl_out r)))
            (indices max)) /\
  (forall i,
      In i (filter (bit_set (filled (Z.to_nat (Z.quot (max + 7) 8))
                               (ioctl_out r)))
                   (indices max)) ->
      0 <= i < max) /\
  (forall e, get_sw_led_snd evtype (IoctlErr e) = Return (PyList [])).
Proof.
  pose proof (sw_led_snd_max_nonneg _ H) as Hmax.
  assert (R : forall r',
             get_sw_led_snd evtype r'
             = Return (PyList
                 (map PyLong
                    (filter (bit_set (filled (Z.to_nat (Z.quot (max + 7) 8))
                                        (ioctl_out r')))
                            (indices max))))).
  { intro r'. unfold get_sw_led_snd. rewrite H.
    pose proof (@sw_led_snd_scan_in_bounds max (ioctl_out r') Hmax) as D.
    destruct (sw_led_snd_scan max _) as [res|] eqn:E; [|contradiction].
    do 2 f_equal. unfold sw_led_snd_scan, for_range in E.
    apply for_loop_fold with
      (step := fun i res =>
                 if bit_set (filled (Z.to_nat (Z.quot (max + 7) 8))
                               (ioctl_out r')) i
                 then res ++ [PyLong i] else res) in E.
    - rewrite fold_collect, Z.sub_0_r in E. exact E.
    - intros j s r0. unfold bit_set.
      destruct (test_bit _ j) as [b|]; [|discriminate].
      destruct (b =? 0); simpl; now intros [= <-]. }
  split; [apply R|].
  split; [apply filter_sorted, seqZ_sorted|].
  split.
  - intros i Hi. apply filter_In in Hi. destruct Hi as [Hi _].
    unfold indices in Hi. apply seqZ_In in Hi. lia.
  - intro e. rewrite R. cbn [ioctl_out]. rewrite filled_nil.
    rewrite filter_none; [reflexivity|].
    intros x _. apply bit_set_zeroed.
Qed.

(** A keyboard with NumLock and CapsLock lit. *)
Lemma get_sw_led_snd_set_bits_witness :
  get_sw_led_snd EV_LED (IoctlOk 2 [3; 0])
  = Return (PyList [PyLong 0; PyLong 1]).
Proof.
  apply (proj1 (@get_sw_led_snd_set_bits EV_LED LED_MAX (IoctlOk 2 [3; 0])
                  eq_refl)).
Defined.

(** *** Batch read *)

Lemma seq_add (k s m : nat) : seq (k + s) m = map (Nat.add k) (seq s m).
Proof.
  revert s. induction m as [|m IH]; intro s; [reflexivity|].
  simpl. f_equal. rewrite <- IH. f_equal. lia.
Qed.

Lemma whole_records_app (d1 d2 : mem) (k : nat) :
  length d1 = (k * sizeof_input_event)%nat ->
  whole_records (d1 ++ d2) = whole_records d1 ++ whole_records d2.
Proof.
  intro H. unfold whole_records.
  rewrite length_app, H.
  rewrite Nat.div_add_l, Nat.div_mul by (unfold sizeof_input_event; lia).
  rewrite seq_app, map_app. f_equal.
  - apply map_ext_in. intros j Hj. apply in_seq in Hj.
    do 2 f_equal. unfold field.
    rewrite skipn_app, firstn_app, length_skipn, H.
    replace (sizeof_input_event
             - (k * sizeof_input_event - j * sizeof_input_event))%nat
      with 0%nat by (unfold sizeof_input_event; nia).
    simpl. now rewrite app_nil_r.
  - replace (0 + k)%nat with (k + 0)%nat by lia. rewrite seq_add, map_map.
    apply map_ext. intro j. do 2 f_equal. unfold field.
    unfold sizeof_input_event in *.
    rewrite skipn_app.
    replace (skipn ((k + j) * 24) d1) with (@nil Z)
      by (symmetry; apply skipn_all2; unfold mem, byte in *; lia).
    rewrite H. cbn [app]. do 2 f_equal. lia.
Qed.

(** Batches compose: when the first of two deliveries is a whole number of
    records, reading them at once gives the events of the first followed by
    those of the second. *)
Theorem device_read_many_batches (errno : Z) (stack1 stack2 stack : mem)
  (d1 d2 : mem) (H : (length d1 mod sizeof_input_event = 0)%nat) :
  exists l1 l2,
    device_read_many errno stack1 (ReadOk d1) = Return (PyList l1) /\
    device_read_many errno stack2 (ReadOk d2) = Return (PyList l2) /\
    device_read_many errno stack (ReadOk (d1 ++ d2))
    = Return (PyList (l1 ++ l2)).
Proof.
  exists (whole_records d1), (whole_records d2).
  rewrite !device_read_many_ok. repeat split.
  rewrite whole_records_app with (k := (length d1 / sizeof_input_event)%nat);
    [reflexivity|].
  apply Nat.Div0.div_exact in H. lia.
Qed.

Lemma device_read_many_batches_witness :
  exists l1 l2,
    device_read_many 0 [] (ReadOk (encode_event (mk_input_event 1 2 1 30 1)))
    = Return (PyList l1) /\
    device_read_many 0 []
      (ReadOk (encode_event (mk_input_event 1 3 1 30 0) ++ [9]))
    = Return (PyList l2) /\
    device_read_many 0 []
      (ReadOk (encode_event (mk_input_event 1 2 1 30 1) ++
               encode_event (mk_input_event 1 3 1 30 0) ++ [9]))
    = Return (PyList (l1 ++ l2)).
Proof.
  apply (@device_read_many_batches 0 [] [] []
           (encode_event (mk_input_event 1 2 1 30 1))
           (encode_event (mk_input_event 1 3 1 30 0) ++ [9])).
  reflexivity.
Defined.

(** *** Effect upload *)

(** The effect handed to the kernel, field by field: the 16-bit images of
    the arguments at their offsets, the trigger, the padding and the rest of
    the union zero.  Arguments enter with their low 16 bits only: two ids
    that differ by a multiple of 65536 build the same effect. *)
Theorem build_ff_effect_layout (fxtype direction replay_length replay_delay
  constant_level attack_level attack_length fade_level fade_length fxid : Z) :
  build_ff_effect fxtype direction replay_length replay_delay constant_level
    attack_level attack_length fade_level fade_length fxid
  = le_bytes 2 fxtype ++ le_bytes 2 fxid ++ le_bytes 2 direction ++
    [0; 0; 0; 0] ++
    le_bytes 2 replay_length ++ le_bytes 2 replay_delay ++
    [0; 0] ++
    le_bytes 2 constant_level ++
    le_bytes 2 attack_length ++ le_bytes 2 attack_level ++
    le_bytes 2 fade_length ++ le_bytes 2 fade_level ++
    zeroed 22 /\
  length (build_ff_effect fxtype direction replay_length replay_delay
            constant_level attack_level attack_length fade_level fade_length
            fxid) = sizeof_ff_effect /\
  (forall k,
      build_ff_effect fxtype direction replay_length replay_delay
        constant_level attack_level attack_length fade_level fade_length
        (fxid + k * 65536)
      = build_ff_effect fxtype direction replay_length replay_delay
          constant_level attack_level attack_length fade_level fade_length
          fxid).
Proof.
  assert (E : forall id,
             build_ff_effect fxtype direction replay_length replay_delay
               constant_level attack_level attack_length fade_level
               fade_length id
             = le_bytes 2 fxtype ++ le_bytes 2 id ++ le_bytes 2 direction ++
               [0; 0; 0; 0] ++
               le_bytes 2 replay_length ++ le_bytes 2 replay_delay ++
               [0; 0] ++
               le_bytes 2 constant_level ++
               le_bytes 2 attack_length ++ le_bytes 2 attack_level ++
               le_bytes 2 fade_length ++ le_bytes 2 fade_level ++
               zeroed 22) by reflexivity.
  split; [apply E|]. split; [reflexivity|].
  intro k. rewrite !E.
  change 65536 with (2 ^ (8 * Z.of_nat 2)). now rewrite le_bytes_wrap.
Qed.

(** The id [ioctl_EVIOCSFF] returns after a successful request is the id
    field of the effect as the kernel left it, read as a signed 16-bit
    value: the id the kernel stored there, or, when the kernel stored
    nothing, the id passed in (so [-1] comes back as [-1]). *)
Theorem ioctl_EVIOCSFF_returns_id (errno fxtype direction replay_length
  replay_delay constant_level attack_level attack_length fade_level
  fade_length fxid : Z) :
  (forall t id,
      - 2 ^ 15 <= id < 2 ^ 15 ->
      ioctl_EVIOCSFF errno fxtype direction replay_length replay_delay
        constant_level attack_level attack_length fade_level fade_length
        fxid (IoctlOk 0 (le_bytes 2 t ++ le_bytes 2 id))
      = Return (PyLong id)) /\
  (- 2 ^ 15 <= fxid < 2 ^ 15 ->
   ioctl_EVIOCSFF errno fxtype direction replay_length replay_delay
     constant_level attack_level attack_length fade_level fade_length
     fxid (IoctlOk 0 [])
   = Return (PyLong fxid)).
Proof.
  split.
  - intros t id Hid. unfold ioctl_EVIOCSFF. cbn [ioctl_ret ioctl_out].
    cbv beta iota zeta. change (negb (Z.of_nat 0 =? 0)) with false.
    cbv iota.
    change (field _ 2 2) with (le_bytes 2 id).
    rewrite le_signed_roundtrip; [reflexivity | lia | simpl; lia].
  - intro Hid. unfold ioctl_EVIOCSFF. cbn [ioctl_ret ioctl_out].
    cbv beta iota zeta. change (negb (Z.of_nat 0 =? 0)) with false.
    cbv iota.
    change (field _ 2 2) with (le_bytes 2 fxid).
    rewrite le_signed_roundtrip; [reflexivity | lia | simpl; lia].
Qed.

(** *** Autorepeat, version, effect count *)

(** [ioctl_EVIOCGREP] returns the two 32-bit values of the kernel's answer,
    each read as a signed [int]: a value of 2^31 or more comes back
    negative. *)
Theorem ioctl_EVIOCGREP_values (n : nat) (delay period : Z)
  (Hd : 0 <= delay < 2 ^ 32) (Hp : 0 <= period < 2 ^ 32) :
  ioctl_EVIOCGREP (IoctlOk n (le_bytes 4 delay ++ le_bytes 4 period))
  = Return (PyTuple
              [PyLong (if delay <? 2 ^ 31 then delay else delay - 2 ^ 32);
               PyLong (if period <? 2 ^ 31 then period else period - 2 ^ 32)]).
Proof.
  unfold ioctl_EVIOCGREP. cbn [ioctl_out].
  change (field _ 0 4) with (le_bytes 4 delay).
  change (field _ 4 4) with (le_bytes 4 period).
  rewrite !le_signed_le_bytes.
  change (8 * Z.of_nat 4) with 32. change (32 - 1) with 31.
  now rewrite !Z.mod_small by lia.
Qed.

Lemma ioctl_EVIOCGREP_values_witness :
  ioctl_EVIOCGREP (IoctlOk 0 (le_bytes 4 250 ++ le_bytes 4 4294967295))
  = Return (PyTuple [PyLong 250; PyLong (-1)]).
Proof.
  apply (@ioctl_EVIOCGREP_values 0 250 4294967295); lia.
Defined.

(** The protocol version and the effect count returned after a successful
    request are the integer the kernel stored, whatever the variable held
    before. *)
Theorem ioctl_integer_answers (errno : Z) (stack : mem) (n : nat) (v : Z)
  (Hv : - 2 ^ 31 <= v < 2 ^ 31) :
  ioctl_EVIOCGVERSION stack (IoctlOk n (le_bytes 4 v)) = Return (PyLong v) /\
  ioctl_EVIOCGEFFECTS errno stack (IoctlOk 0 (le_bytes 4 v))
  = Return (PyLong v).
Proof.
  assert (L : load (poke (le_bytes 4 v) stack) 0 4 = Some (le_bytes 4 v)).
  { rewrite load_poke by (rewrite le_bytes_length; lia). reflexivity. }
  unfold ioctl_EVIOCGVERSION, ioctl_EVIOCGEFFECTS. cbn [ioctl_ret ioctl_out].
  rewrite L, le_signed_roundtrip by (simpl; lia). split; reflexivity.
Qed.

Lemma ioctl_integer_answers_witness :
  ioctl_EVIOCGVERSION [1; 2; 3; 4] (IoctlOk 0 (le_bytes 4 65537))
  = Return (PyLong 65537) /\
  ioctl_EVIOCGEFFECTS 0 [1; 2; 3; 4] (IoctlOk 0 (le_bytes 4 16))
  = Return (PyLong 16).
Proof.
  split.
  - apply (proj1 (@ioctl_integer_answers 0 [1; 2; 3; 4] 0 65537
                    ltac:(lia))).
  - apply (proj2 (@ioctl_integer_answers 0 [1; 2; 3; 4] 0 16 ltac:(lia))).
Defined.

(** Grab, effect removal, effect count and effect upload succeed on a zero
    return only.  A positive return of the request, which sets no errno,
    is raised as an [IOError] carrying the errno left from before. *)
Theorem nonzero_status_is_fault (errno : Z) (n : nat) (out : mem) :
  (forall flag,
      ioctl_EVIOCGRAB errno flag (IoctlOk (S n) out) = IOError errno /\
      ioctl_EVIOCGRAB errno flag (IoctlOk 0 out) = Return PyNone) /\
  (forall effect_id,
      ioctl_EVIOCRMFF errno effect_id (IoctlOk (S n) out) = IOError errno /\
      ioctl_EVIOCRMFF errno effect_id (IoctlOk 0 out) = Return PyNone) /\
  (forall stack,
      ioctl_EVIOCGEFFECTS errno stack (IoctlOk (S n) out) = IOError errno) /\
  (forall fxtype direction replay_length replay_delay constant_level
          attack_level attack_length fade_level fade_length fxid,
      ioctl_EVIOCSFF errno fxtype direction replay_length replay_delay
        constant_level attack_level attack_length fade_level fade_length
        fxid (IoctlOk (S n) out) = IOError errno).
Proof.
  assert (N : negb (Z.of_nat (S n) =? 0) = true).
  { destruct (Z.eqb_spec (Z.of_nat (S n)) 0); [lia | reflexivity]. }
  unfold ioctl_EVIOCGRAB, ioctl_EVIOCRMFF, ioctl_EVIOCGEFFECTS,
    ioctl_EVIOCSFF.
  cbn [ioctl_ret ioctl_errno]. rewrite N. repeat split.
Qed.

(** *** Force-feedback writes, continued *)

(** The effect id reaches the record with its low 16 bits only, so the id
    [-1] is written as code 65535; and every return of [write] other than
    [-1] counts as success, a write that took no byte included. *)
Theorem ff_writes_truncate_and_ignore_count (errno : Z) (stack : mem) :
  (forall fxid ntimes k w,
      fst (play_FF_EFFECT errno stack (fxid + k * 65536) ntimes w)
      = fst (play_FF_EFFECT errno stack fxid ntimes w)) /\
  (forall fxid ntimes n,
      snd (play_FF_EFFECT errno stack fxid ntimes (WriteOk n))
      = Return PyNone) /\
  (forall gain n,
      snd (set_FF_GAIN errno stack gain (WriteOk n)) = Return PyNone) /\
  (forall force n,
      snd (set_FF_AUTOCENTER errno stack force (WriteOk n)) = Return PyNone).
Proof.
  assert (N : forall n, (Z.of_nat n =? -1) = false).
  { intro n. destruct (Z.eqb_spec (Z.of_nat n) (-1)); [lia | reflexivity]. }
  split; [|repeat split; intros;
             unfold play_FF_EFFECT, set_FF_GAIN, set_FF_AUTOCENTER, ff_write;
             cbn [snd write_ret]; now rewrite N].
  intros fxid ntimes k w. unfold play_FF_EFFECT, ff_event.
  change 65536 with (2 ^ (8 * Z.of_nat 2)). now rewrite le_bytes_wrap.
Qed.

(** *** Device identity, continued *)

Lemma c_string_unterminated (s : mem) :
  Forall (fun b => b <> 0) s -> c_string s = None.
Proof.
  induction 1 as [|b s Hb Hs IH]; simpl; [reflexivity|].
  destruct (Z.eqb_spec b 0); [contradiction|]. now rewrite IH.
Qed.

(** *** Axis information *)

(** In a returned capability map every entry under [EV_ABS] is the pair of
    a code below [KEY_MAX] and the six fields left in the zeroed
    [input_absinfo] by that code's [EVIOCGABS] request: the six values of
    the kernel's answer, and six zeros when the request failed. *)
Theorem ioctl_capabilities_axis_info
  (EVIOCGBIT : Z -> Z -> ioctl_result) (EVIOCGABS : Z -> ioctl_result)
  (ev_adjacent : Z -> mem) (code_adjacent : Z -> Z -> mem)
  (errno : Z) (caps : list (Z * PyObject)) (es : list PyObject)
  (entry : PyObject) :
  ioctl_capabilities EVIOCGBIT EVIOCGABS ev_adjacent code_adjacent errno
  = Return (PyDict caps) ->
  In (EV_ABS, PyList es) caps ->
  In entry es ->
  exists c,
    0 <= c < KEY_MAX /\
    (forall e,
        EVIOCGABS c = IoctlErr e ->
        entry = PyTuple [PyLong c;
                         PyTuple [PyLong 0; PyLong 0; PyLong 0;
                                  PyLong 0; PyLong 0; PyLong 0]]) /\
    (forall n v mn mx fuzz flat res,
        - 2 ^ 31 <= v < 2 ^ 31 -> - 2 ^ 31 <= mn < 2 ^ 31 ->
        - 2 ^ 31 <= mx < 2 ^ 31 -> - 2 ^ 31 <= fuzz < 2 ^ 31 ->
        - 2 ^ 31 <= flat < 2 ^ 31 -> - 2 ^ 31 <= res < 2 ^ 31 ->
        EVIOCGABS c = IoctlOk n (le_bytes 4 v ++ le_bytes 4 mn ++
                                 le_bytes 4 mx ++ le_bytes 4 fuzz ++
                                 le_bytes 4 flat ++ le_bytes 4 res) ->
        entry = PyTuple [PyLong c;
                         PyTuple [PyLong v; PyLong mn; PyLong mx;
                                  PyLong fuzz; PyLong flat; PyLong res]]).
Proof.
  intros Hrun Hcaps Hentry.
  apply ioctl_capabilities_result in Hrun. injection Hrun as ->.
  unfold capability_map in Hcaps. apply in_map_iff in Hcaps.
  destruct Hcaps as (t & Ht & _). injection Ht as -> <-.
  apply in_map_iff in Hentry. destruct Hentry as (c & <- & Hc).
  exists c. split.
  { unfold probed_codes, indices in Hc.
    apply filter_In in Hc. destruct Hc as [Hc _].
    apply seqZ_In in Hc. unfold KEY_MAX in *. simpl Z.of_nat in Hc. lia. }
  change (capability_entry EVIOCGABS EV_ABS c)
    with (PyTuple [PyLong c; absinfo_tuple (fetch_absinfo EVIOCGABS c)]).
  unfold fetch_absinfo. split.
  - intros e ->. reflexivity.
  - intros n v mn mx fuzz flat res Hv Hmn Hmx Hfuzz Hflat Hres ->.
    cbn [ioctl_out]. unfold absinfo_tuple.
    set (a := filled sizeof_input_absinfo _).
    change (field a 0 4) with (le_bytes 4 v).
    change (field a 4 4) with (le_bytes 4 mn).
    change (field a 8 4) with (le_bytes 4 mx).
    change (field a 12 4) with (le_bytes 4 fuzz).
    change (field a 16 4) with (le_bytes 4 flat).
    change (field a 20 4) with (le_bytes 4 res).
    rewrite !le_signed_roundtrip by (simpl; lia). reflexivity.
Qed.

(** The sample device, its axis 1. *)
Lemma ioctl_capabilities_axis_info_witness :
  exists c, 0 <= c < KEY_MAX.
Proof.
  destruct (@ioctl_capabilities_axis_info
              sample_EVIOCGBIT sample_EVIOCGABS
              sample_ev_adjacent sample_code_adjacent 0
              (capability_map sample_EVIOCGBIT sample_EVIOCGABS
                 sample_ev_adjacent sample_code_adjacent)
              (map (capability_entry sample_EVIOCGABS EV_ABS)
                 (probed_codes sample_EVIOCGBIT sample_code_adjacent
                    EV_ABS))
              (PyTuple [PyLong 1;
                        PyTuple [PyLong 129; PyLong (-255); PyLong 255;
                                 PyLong 0; PyLong 15; PyLong 0]]))
    as (c & Hc & _).
  - vm_compute. reflexivity.
  - vm_compute. right. left. reflexivity.
  - vm_compute. right. left. reflexivity.
  - exists c. exact Hc.
Defined.

(** ** Batch read, with its request *)

Lemma skipn_add {A : Type} (x y : nat) (l : list A) :
  skipn x (skipn y l) = skipn (y + x) l.
Proof.
  revert l. induction y as [|y IH]; intro l; [reflexivity|].
  destruct l as [|a l]; [now rewrite !skipn_nil|]. simpl. apply IH.
Qed.

(** A field of a field is a field of the whole. *)
Lemma field_field (m : mem) (o n off len : nat) :
  (off + len <= n)%nat ->
  field (field m o n) off len = field m (o + off) len.
Proof.
  intro H. unfold field.
  rewrite skipn_firstn_comm, firstn_firstn, skipn_add.
  now rewrite Nat.min_l by lia.
Qed.

(** A field inside the first [n] bytes does not see the bytes behind. *)
Lemma field_firstn (m : mem) (n off len : nat) :
  (off + len <= n)%nat -> field (firstn n m) off len = field m off len.
Proof.
  intro H. unfold field.
  rewrite skipn_firstn_comm, firstn_firstn.
  now rewrite Nat.min_l by lia.
Qed.

Lemma min_records (n : nat) :
  (Nat.min (64 * 24) n / 24 = Nat.min 64 (n / 24))%nat.
Proof.
  destruct (Nat.le_gt_cases n (64 * 24)) as [Hle | Hgt].
  - rewrite Nat.min_r by exact Hle.
    assert (n / 24 <= 64)%nat
      by (apply Nat.Div0.div_le_upper_bound; lia).
    now rewrite Nat.min_r.
  - rewrite Nat.min_l by lia.
    assert (64 <= n / 24)%nat
      by (apply Nat.div_le_lower_bound; lia).
    rewrite Nat.min_l by assumption. reflexivity.
Qed.

(** The tuples of the whole records of [data], field by field. *)
Lemma whole_records_fields (data : mem) :
  whole_records data
  = map (fun k =>
           PyTuple [PyLong (le_signed (field data (k * 24) 8));
                    PyLong (le_signed (field data (k * 24 + 8) 8));
                    PyLong (le_unsigned (field data (k * 24 + 16) 2));
                    PyLong (le_unsigned (field data (k * 24 + 18) 2));
                    PyLong (le_signed (field data (k * 24 + 20) 4))])
        (seq 0 (length data / 24)).
Proof.
  unfold whole_records. apply map_ext. intro k.
  unfold event_tuple, decode_input_event, sizeof_input_event.
  cbn [tv_sec tv_usec type code value].
  rewrite !field_field by lia. now rewrite Nat.add_0_r.
Qed.

(** C4. Batch read.  A failing [read] raises its OS error.  Otherwise the
    result is the list of the tuples (seconds, microseconds, type, code,
    value) read field by field from the whole 24-byte records of the bytes
    delivered, in order of arrival; the bytes behind the last whole record
    and the former content of the buffer play no part.  Records as the
    kernel lays them out, followed by fewer than 24 stray bytes, give back
    exactly their fields; no bytes give the empty list.  The request asks
    for 64 records' worth of bytes, so whatever the descriptor holds the
    list has [min 64 (available / 24)] tuples, never more than 64. *)
Theorem device_read_many_whole_records (errno : Z) (stack : mem) :
  (forall e, device_read_many errno stack (ReadErr e) = IOError e) /\
  (forall e, device_read_many_fd errno stack (FdError e) = IOError e) /\
  (forall data,
      device_read_many errno stack (ReadOk data)
      = Return
          (PyList
             (map (fun k =>
                     PyTuple
                       [PyLong (le_signed (field data (k * 24) 8));
                        PyLong (le_signed (field data (k * 24 + 8) 8));
                        PyLong (le_unsigned (field data (k * 24 + 16) 2));
                        PyLong (le_unsigned (field data (k * 24 + 18) 2));
                        PyLong (le_signed (field data (k * 24 + 20) 4))])
                  (seq 0 (length data / 24))))) /\
  (forall evs stray,
      Forall event_in_range evs ->
      (length stray < 24)%nat ->
      device_read_many errno stack
        (ReadOk (concat (map encode_event evs) ++ stray))
      = Return
          (PyList
             (map (fun ev =>
                     PyTuple [PyLong (tv_sec ev); PyLong (tv_usec ev);
                              PyLong (type ev); PyLong (code ev);
                              PyLong (value ev)])
                  evs))) /\
  (forall available,
      device_read_many_fd errno stack (FdReady available)
      = Return
          (PyList
             (map (fun k =>
                     PyTuple
                       [PyLong (le_signed (field available (k * 24) 8));
                        PyLong (le_signed (field available (k * 24 + 8) 8));
                        PyLong (le_unsigned
                                  (field available (k * 24 + 16) 2));
                        PyLong (le_unsigned
                                  (field available (k * 24 + 18) 2));
                        PyLong (le_signed
                                  (field available (k * 24 + 20) 4))])
                  (seq 0 (Nat.min 64 (length available / 24)))))) /\
  (forall fd l,
      device_read_many_fd errno stack fd = Return (PyList l) ->
      (length l <= 64)%nat) /\
  device_read_many errno stack (ReadOk []) = Return (PyList []) /\
  device_read_many_fd errno stack (FdReady []) = Return (PyList []).
Proof.
  assert (Hfd : forall available,
             device_read_many_fd errno stack (FdReady available)
             = Return
                 (PyList
                    (map (fun k =>
                            PyTuple
                              [PyLong (le_signed
                                         (field available (k * 24) 8));
                               PyLong (le_signed
                                         (field available (k * 24 + 8) 8));
                               PyLong (le_unsigned
                                         (field available (k * 24 + 16) 2));
                               PyLong (le_unsigned
                                         (field available (k * 24 + 18) 2));
                               PyLong (le_signed
                                         (field available (k * 24 + 20) 4))])
                         (seq 0 (Nat.min 64 (length available / 24)))))).
  { intro available. unfold device_read_many_fd, sys_read.
    change (Z.to_nat (Z.of_nat sizeof_input_event * 64)) with (64 * 24)%nat.
    rewrite device_read_many_ok, whole_records_fields.
    rewrite length_firstn, min_records. do 2 f_equal.
    apply map_ext_in. intros k Hk. apply in_seq in Hk.
    assert (k < 64)%nat by lia.
    now rewrite !field_firstn by lia. }
  split; [reflexivity|]. split; [reflexivity|].
  split; [intro data; now rewrite device_read_many_ok, whole_records_fields|].
  split.
  { intros evs stray Hr Hs.
    rewrite device_read_many_ok, whole_records_encoded by assumption.
    reflexivity. }
  split; [exact Hfd|].
  split.
  { intros [e | available] l H.
    - discriminate H.
    - rewrite Hfd in H.
      set (n := Nat.min 64 (length available / 24)) in H.
      assert (Hn : (n <= 64)%nat) by apply Nat.le_min_l.
      clearbody n. injection H as <-.
      now rewrite length_map, length_seq. }
  split; reflexivity.
Qed.

(** Two records followed by three stray bytes, read into a buffer that held
    other bytes before. *)
Lemma device_read_many_whole_records_witness :
  device_read_many 0 (repeat 170 1536)
    (ReadOk (concat (map encode_event
                       [mk_input_event 1 2 1 30 1;
                        mk_input_event 1 3 1 30 (-1)]) ++ [7; 7; 7]))
  = Return (PyList [PyTuple [PyLong 1; PyLong 2; PyLong 1; PyLong 30;
                             PyLong 1];
                    PyTuple [PyLong 1; PyLong 3; PyLong 1; PyLong 30;
                             PyLong (-1)]]).
Proof.
  apply (proj1 (proj2 (proj2 (proj2
           (device_read_many_whole_records 0 (repeat 170 1536)))))
           [mk_input_event 1 2 1 30 1; mk_input_event 1 3 1 30 (-1)]
           [7; 7; 7]).
  - repeat apply Forall_cons; try apply Forall_nil;
      unfold event_in_range; cbn [tv_sec tv_usec type code value]; lia.
  - simpl; lia.
Defined.

(** A descriptor that holds 65 records: the request takes 64 of them. *)
Example device_read_many_takes_64 :
  exists l,
    device_read_many_fd 0 []
      (FdReady (concat (repeat (encode_event (mk_input_event 1 2 1 30 1)) 65)))
    = Return (PyList l) /\ length l = 64%nat.
Proof. eexists. split; [vm_compute; reflexivity | reflexivity]. Qed.

(** ** Capability enumerator: types read from the frame *)

(** C6. The map does not hold the types the kernel reports.  The probes of
    types 24 to 30 read the byte behind [ev_bits] (C1): on the sample
    device, whose answer has bits 1 and 3 only, a frame with a set bit in
    that byte gives a map with a third key, 24; and a device that reports
    type 24 gets a map without it when that byte is zero. *)
Theorem ioctl_capabilities_types_from_frame :
  bit_set (ioctl_out (sample_EVIOCGBIT 0 EV_MAX)) 24 = false /\
  ioctl_capabilities sample_EVIOCGBIT sample_EVIOCGABS
    stale_ev_adjacent sample_code_adjacent 0
  = Return
      (PyDict
         [(1, PyList [PyLong 30; PyLong 48]);
          (3, PyList
                [PyTuple [PyLong 0;
                          PyTuple [PyLong 128; PyLong (-255); PyLong 255;
                                   PyLong 0; PyLong 15; PyLong 0]];
                 PyTuple [PyLong 1;
                          PyTuple [PyLong 129; PyLong (-255); PyLong 255;
                                   PyLong 0; PyLong 15; PyLong 0]]]);
          (24, PyList [])]) /\
  bit_set (ioctl_out (type24_EVIOCGBIT 0 EV_MAX)) 24 = true /\
  ioctl_capabilities type24_EVIOCGBIT failing_EVIOCGABS
    sample_ev_adjacent sample_code_adjacent 0
  = Return (PyDict []).
Proof.
  repeat split; vm_compute; reflexivity.
Qed.

(** ** Device identity *)

Lemma Py_BuildValue_s_ok (PY_MAJOR_VERSION : Z) (s : mem) :
  PY_MAJOR_VERSION < 3 \/ utf8_valid s = true ->
  Py_BuildValue_s PY_MAJOR_VERSION s = Some (PyStr s).
Proof.
  unfold Py_BuildValue_s. intros [H | H].
  - destruct (Z.leb_spec 3 PY_MAJOR_VERSION); [lia | reflexivity].
  - rewrite H. now rewrite andb_false_r.
Qed.

Lemma Py_BuildValue_s_fails (PY_MAJOR_VERSION : Z) (s : mem) :
  3 <= PY_MAJOR_VERSION -> utf8_valid s = false ->
  Py_BuildValue_s PY_MAJOR_VERSION s = None.
Proof.
  unfold Py_BuildValue_s. intros H ->.
  destruct (Z.leb_spec 3 PY_MAJOR_VERSION); [reflexivity | lia].
Qed.

(** The identity query when its first two requests succeed and both
    strings are terminated and can be built. *)
Lemma ioctl_devinfo_returns (PY_MAJOR_VERSION errno : Z) (name_stack : mem)
  (bustype vendor product version : Z) (name phys : mem)
  (n_id n_name : nat) (r_phys : ioctl_result) :
  0 <= bustype < 2 ^ 16 -> 0 <= vendor < 2 ^ 16 ->
  0 <= product < 2 ^ 16 -> 0 <= version < 2 ^ 16 ->
  Forall (fun b => b <> 0) name ->
  (length name < Z.to_nat MAX_NAME_SIZE)%nat ->
  PY_MAJOR_VERSION < 3 \/ utf8_valid name = true ->
  c_string (filled (Z.to_nat MAX_NAME_SIZE) (ioctl_out r_phys)) = Some phys ->
  PY_MAJOR_VERSION < 3 \/ utf8_valid phys = true ->
  ioctl_devinfo PY_MAJOR_VERSION errno name_stack
    (IoctlOk n_id (le_bytes 2 bustype ++ le_bytes 2 vendor ++
                   le_bytes 2 product ++ le_bytes 2 version))
    (IoctlOk n_name (name ++ [0]))
    r_phys
  = Return (PyTuple [PyLong bustype; PyLong vendor; PyLong product;
                     PyLong version; PyStr name; PyStr phys]).
Proof.
  intros Hb Hv Hp Hver Hnz Hlen Hname Hphys Hpv.
  unfold ioctl_devinfo. cbn [ioctl_ret ioctl_out ioctl_errno].
  destruct (Z.ltb_spec (Z.of_nat n_id) 0); [lia|].
  destruct (Z.ltb_spec (Z.of_nat n_name) 0); [lia|].
  rewrite name_read_back by assumption. rewrite Hphys.
  rewrite !Py_BuildValue_s_ok by assumption.
  set (iid := filled 8 _).
  change (field iid 0 2) with (le_bytes 2 bustype).
  change (field iid 2 2) with (le_bytes 2 vendor).
  change (field iid 4 2) with (le_bytes 2 product).
  change (field iid 6 2) with (le_bytes 2 version).
  rewrite !le_unsigned_roundtrip by (simpl; lia). reflexivity.
Qed.

Lemma ioctl_devinfo_id_fails (PY_MAJOR_VERSION errno : Z) (name_stack : mem)
  (e : Z) (r_name r_phys : ioctl_result) :
  ioctl_devinfo PY_MAJOR_VERSION errno name_stack (IoctlErr e) r_name r_phys
  = IOError e.
Proof. reflexivity. Qed.

Lemma ioctl_devinfo_name_fails (PY_MAJOR_VERSION errno : Z)
  (name_stack : mem) (n : nat) (out : mem) (e : Z) (r_phys : ioctl_result) :
  ioctl_devinfo PY_MAJOR_VERSION errno name_stack
    (IoctlOk n out) (IoctlErr e) r_phys
  = IOError e.
Proof.
  unfold ioctl_devinfo. cbn [ioctl_ret ioctl_out ioctl_errno].
  destruct (Z.ltb_spec (Z.of_nat n) 0); [lia | reflexivity].
Qed.

(** C8. Identity query.  A failing [EVIOCGID] and a failing [EVIOCGNAME]
    each raise their OS error.  When both succeed and [EVIOCGPHYS] fails,
    the query returns the four identity fields and the name the kernel
    gave, with the empty string for the physical path; on a Python 3 build
    this needs the name to be UTF-8, as building the string decodes it. *)
Theorem ioctl_devinfo_error_policy (PY_MAJOR_VERSION errno : Z)
  (name_stack : mem) :
  (forall e r_name r_phys,
      ioctl_devinfo PY_MAJOR_VERSION errno name_stack
        (IoctlErr e) r_name r_phys = IOError e) /\
  (forall n out e r_phys,
      ioctl_devinfo PY_MAJOR_VERSION errno name_stack
        (IoctlOk n out) (IoctlErr e) r_phys
      = IOError e) /\
  (forall bustype vendor product version name n_id n_name e,
      0 <= bustype < 2 ^ 16 -> 0 <= vendor < 2 ^ 16 ->
      0 <= product < 2 ^ 16 -> 0 <= version < 2 ^ 16 ->
      Forall (fun b => b <> 0) name ->
      (length name < Z.to_nat MAX_NAME_SIZE)%nat ->
      PY_MAJOR_VERSION < 3 \/ utf8_valid name = true ->
      ioctl_devinfo PY_MAJOR_VERSION errno name_stack
        (IoctlOk n_id (le_bytes 2 bustype ++ le_bytes 2 vendor ++
                       le_bytes 2 product ++ le_bytes 2 version))
        (IoctlOk n_name (name ++ [0]))
        (IoctlErr e)
      = Return (PyTuple [PyLong bustype; PyLong vendor; PyLong product;
                         PyLong version; PyStr name; PyStr []])).
Proof.
  split; [intros; apply ioctl_devinfo_id_fails|].
  split; [intros; apply ioctl_devinfo_name_fails|].
  intros bustype vendor product version name n_id n_name e
         Hb Hv Hp Hver Hnz Hlen Hname.
  apply ioctl_devinfo_returns; try assumption.
  - reflexivity.
  - now right.
Qed.

(** A USB keyboard without topology on a Python 3 build: the physical-path
    request fails with ENOENT. *)
Lemma ioctl_devinfo_error_policy_witness :
  ioctl_devinfo 3 0 (repeat 170 256)
    (IoctlOk 0 (le_bytes 2 3 ++ le_bytes 2 1133 ++
                le_bytes 2 49948 ++ le_bytes 2 273))
    (IoctlOk 4 ([75; 98; 100] ++ [0]))
    (IoctlErr 2)
  = Return (PyTuple [PyLong 3; PyLong 1133; PyLong 49948; PyLong 273;
                     PyStr [75; 98; 100]; PyStr []]).
Proof.
  apply (proj2 (proj2 (ioctl_devinfo_error_policy 3 0 (repeat 170 256)))).
  - lia.
  - lia.
  - lia.
  - lia.
  - repeat constructor; discriminate.
  - change (Z.to_nat MAX_NAME_SIZE) with 256%nat. simpl. lia.
  - right. reflexivity.
Defined.

(** When the three requests succeed the result carries the identity
    fields, the name and the physical path the kernel gave, provided the
    strings can be built: on Python 3 a name that is not UTF-8 raises
    [UnicodeDecodeError], on Python 2 every name is returned as it is.  A
    name that fills all [MAX_NAME_SIZE] bytes of the array comes without
    terminator: building the string then reads behind the array. *)
Theorem ioctl_devinfo_strings (PY_MAJOR_VERSION errno : Z)
  (name_stack : mem) :
  (forall bustype vendor product version name phys n_id n_name n_phys,
      0 <= bustype < 2 ^ 16 -> 0 <= vendor < 2 ^ 16 ->
      0 <= product < 2 ^ 16 -> 0 <= version < 2 ^ 16 ->
      Forall (fun b => b <> 0) name ->
      (length name < Z.to_nat MAX_NAME_SIZE)%nat ->
      PY_MAJOR_VERSION < 3 \/ utf8_valid name = true ->
      Forall (fun b => b <> 0) phys ->
      (length phys < Z.to_nat MAX_NAME_SIZE)%nat ->
      PY_MAJOR_VERSION < 3 \/ utf8_valid phys = true ->
      ioctl_devinfo PY_MAJOR_VERSION errno name_stack
        (IoctlOk n_id (le_bytes 2 bustype ++ le_bytes 2 vendor ++
                       le_bytes 2 product ++ le_bytes 2 version))
        (IoctlOk n_name (name ++ [0]))
        (IoctlOk n_phys (phys ++ [0]))
      = Return (PyTuple [PyLong bustype; PyLong vendor; PyLong product;
                         PyLong version; PyStr name; PyStr phys])) /\
  (forall n_id id_out n_name name r_phys,
      Forall (fun b => b <> 0) name ->
      length name = Z.to_nat MAX_NAME_SIZE ->
      ioctl_devinfo PY_MAJOR_VERSION errno name_stack
        (IoctlOk n_id id_out) (IoctlOk n_name name) r_phys
      = Undefined) /\
  (forall n_id id_out n_name name e,
      3 <= PY_MAJOR_VERSION ->
      Forall (fun b => b <> 0) name ->
      (length name < Z.to_nat MAX_NAME_SIZE)%nat ->
      utf8_valid name = false ->
      ioctl_devinfo PY_MAJOR_VERSION errno name_stack
        (IoctlOk n_id id_out) (IoctlOk n_name (name ++ [0])) (IoctlErr e)
      = UnicodeDecodeError).
Proof.
  split; [|split].
  - intros bustype vendor product version name phys n_id n_name n_phys
           Hb Hv Hp Hver Hnz Hlen Hname Hpz Hplen Hphys.
    apply ioctl_devinfo_returns; try assumption.
    cbn [ioctl_out]. unfold filled. now apply name_read_back.
  - intros n_id id_out n_name name r_phys Hnz Hlen.
    unfold ioctl_devinfo. cbn [ioctl_ret ioctl_out ioctl_errno].
    destruct (Z.ltb_spec (Z.of_nat n_id) 0); [lia|].
    destruct (Z.ltb_spec (Z.of_nat n_name) 0); [lia|].
    unfold poke. rewrite firstn_app, <- Hlen, firstn_all, Nat.sub_diag.
    cbn [firstn]. rewrite app_nil_r.
    now rewrite c_string_unterminated.
  - intros n_id id_out n_name name e Hpy Hnz Hlen Hbad.
    unfold ioctl_devinfo. cbn [ioctl_ret ioctl_out ioctl_errno].
    destruct (Z.ltb_spec (Z.of_nat n_id) 0); [lia|].
    destruct (Z.ltb_spec (Z.of_nat n_name) 0); [lia|].
    rewrite name_read_back by assumption.
    change (c_string (filled (Z.to_nat MAX_NAME_SIZE) []))
      with (Some (@nil Z)).
    cbv iota. now rewrite Py_BuildValue_s_fails.
Qed.

Lemma ioctl_devinfo_strings_witness :
  ioctl_devinfo 3 0 (repeat 170 256)
    (IoctlOk 0 (le_bytes 2 3 ++ le_bytes 2 1133 ++
                le_bytes 2 49948 ++ le_bytes 2 273))
    (IoctlOk 4 ([75; 98; 100] ++ [0]))
    (IoctlOk 6 ([117; 115; 98; 45; 49] ++ [0]))
  = Return (PyTuple [PyLong 3; PyLong 1133; PyLong 49948; PyLong 273;
                     PyStr [75; 98; 100]; PyStr [117; 115; 98; 45; 49]]) /\
  ioctl_devinfo 3 0 (repeat 170 256)
    (IoctlOk 0 []) (IoctlOk 3 ([75; 255] ++ [0])) (IoctlErr 2)
  = UnicodeDecodeError.
Proof.
  split.
  - apply (proj1 (ioctl_devinfo_strings 3 0 (repeat 170 256))).
    + lia.
    + lia.
    + lia.
    + lia.
    + repeat constructor; discriminate.
    + change (Z.to_nat MAX_NAME_SIZE) with 256%nat. simpl. lia.
    + right. reflexivity.
    + repeat constructor; discriminate.
    + change (Z.to_nat MAX_NAME_SIZE) with 256%nat. simpl. lia.
    + right. reflexivity.
  - apply (proj2 (proj2 (ioctl_devinfo_strings 3 0 (repeat 170 256)))).
    + lia.
    + repeat constructor; discriminate.
    + change (Z.to_nat MAX_NAME_SIZE) with 256%nat. simpl. lia.
    + reflexivity.
Defined.

(** ** Error signalling over the whole layer *)

Lemma get_sw_led_snd_failing (evtype max e : Z) :
  sw_led_snd_max evtype = Some max ->
  get_sw_led_snd evtype (IoctlErr e) = Return (PyList []).
Proof.
  unfold get_sw_led_snd, sw_led_snd_max.
  destruct (evtype =? EV_LED); [intros _; vm_compute; reflexivity|].
  destruct (evtype =? EV_SW); [intros _; vm_compute; reflexivity|].
  destruct (evtype =? EV_SND); [intros _; vm_compute; reflexivity|].
  discriminate.
Qed.

(** C9, as amended.  Every operation of the layer, request by request.
    Signalled as a fault carrying the OS error code: a failing [read] of
    the single and the batch read, the first request of the capability
    enumerator, the id and the name request of the identity query, and the
    request of grab, effect count, effect upload, effect removal and of the
    three force-feedback writes.  Not signalled, a value is returned
    instead: the physical-path request (empty string), autorepeat-get
    (zeros), autorepeat-set (the status of the request, [-1] on failure),
    the state enumeration (empty list) and the requests of the capability
    enumerator after the first (no error is raised, and the map is
    returned where the byte behind each array can be read). *)
Theorem error_signalling_with_status_passthrough
  (PY_MAJOR_VERSION errno : Z) :
  (forall stack e, device_read errno stack (ReadErr e) = IOError e) /\
  (forall stack e, device_read_many errno stack (ReadErr e) = IOError e) /\
  (forall EVIOCGBIT EVIOCGABS ev_adjacent code_adjacent e,
      EVIOCGBIT 0 EV_MAX = IoctlErr e ->
      ioctl_capabilities EVIOCGBIT EVIOCGABS ev_adjacent code_adjacent errno
      = IOError e) /\
  (forall name_stack e r_name r_phys,
      ioctl_devinfo PY_MAJOR_VERSION errno name_stack
        (IoctlErr e) r_name r_phys = IOError e) /\
  (forall name_stack n out e r_phys,
      ioctl_devinfo PY_MAJOR_VERSION errno name_stack
        (IoctlOk n out) (IoctlErr e) r_phys = IOError e) /\
  (forall flag, faults_on_error (ioctl_EVIOCGRAB errno flag)) /\
  (forall stack, faults_on_error (ioctl_EVIOCGEFFECTS errno stack)) /\
  (forall fxtype direction replay_length replay_delay constant_level
          attack_level attack_length fade_level fade_length fxid,
      faults_on_error
        (ioctl_EVIOCSFF errno fxtype direction replay_length replay_delay
           constant_level attack_level attack_length fade_level fade_length
           fxid)) /\
  (forall effect_id, faults_on_error (ioctl_EVIOCRMFF errno effect_id)) /\
  (forall stack force,
      write_faults_on_error (set_FF_AUTOCENTER errno stack force)) /\
  (forall stack gain, write_faults_on_error (set_FF_GAIN errno stack gain)) /\
  (forall stack fxid ntimes,
      write_faults_on_error (play_FF_EFFECT errno stack fxid ntimes)) /\
  (forall name_stack bustype vendor product version name n_id n_name e,
      0 <= bustype < 2 ^ 16 -> 0 <= vendor < 2 ^ 16 ->
      0 <= product < 2 ^ 16 -> 0 <= version < 2 ^ 16 ->
      Forall (fun b => b <> 0) name ->
      (length name < Z.to_nat MAX_NAME_SIZE)%nat ->
      PY_MAJOR_VERSION < 3 \/ utf8_valid name = true ->
      ioctl_devinfo PY_MAJOR_VERSION errno name_stack
        (IoctlOk n_id (le_bytes 2 bustype ++ le_bytes 2 vendor ++
                       le_bytes 2 product ++ le_bytes 2 version))
        (IoctlOk n_name (name ++ [0]))
        (IoctlErr e)
      = Return (PyTuple [PyLong bustype; PyLong vendor; PyLong product;
                         PyLong version; PyStr name; PyStr []])) /\
  (forall e, ioctl_EVIOCGREP (IoctlErr e)
             = Return (PyTuple [PyLong 0; PyLong 0])) /\
  (forall rep0 rep1 r,
      ioctl_EVIOCSREP rep0 rep1 r = Return (PyLong (ioctl_ret r))) /\
  (forall rep0 rep1 e,
      ioctl_EVIOCSREP rep0 rep1 (IoctlErr e) = Return (PyLong (-1))) /\
  (forall evtype max e,
      sw_led_snd_max evtype = Some max ->
      get_sw_led_snd evtype (IoctlErr e) = Return (PyList [])) /\
  (forall EVIOCGBIT EVIOCGABS ev_adjacent code_adjacent n out,
      EVIOCGBIT 0 EV_MAX = IoctlOk n out ->
      forall e,
        ioctl_capabilities EVIOCGBIT EVIOCGABS ev_adjacent code_adjacent
          errno <> IOError e) /\
  (forall EVIOCGBIT EVIOCGABS ev_adjacent code_adjacent n out,
      (forall t, ev_adjacent t <> []) ->
      (forall t c, code_adjacent t c <> []) ->
      EVIOCGBIT 0 EV_MAX = IoctlOk n out ->
      ioctl_capabilities EVIOCGBIT EVIOCGABS ev_adjacent code_adjacent errno
      = Return (PyDict (capability_map EVIOCGBIT EVIOCGABS ev_adjacent
                          code_adjacent))).
Proof.
  split; [reflexivity|]. split; [reflexivity|].
  split.
  { intros EVIOCGBIT EVIOCGABS ev_adjacent code_adjacent e He.
    unfold ioctl_capabilities. now rewrite He. }
  split; [intros; apply ioctl_devinfo_id_fails|].
  split; [intros; apply ioctl_devinfo_name_fails|].
  do 7 (split; [repeat intro; reflexivity|]).
  split.
  { intros name_stack bustype vendor product version name n_id n_name e
           Hb Hv Hp Hver Hnz Hlen Hname.
    apply ioctl_devinfo_returns; try assumption; [reflexivity | now right]. }
  do 3 (split; [reflexivity|]).
  split; [exact get_sw_led_snd_failing|].
  split.
  { intros EVIOCGBIT EVIOCGABS ev_adjacent code_adjacent n out Hok e.
    unfold ioctl_capabilities. rewrite Hok. cbn [ioctl_ret ioctl_out].
    destruct (Z.ltb_spec (Z.of_nat n) 0); [lia|].
    destruct (for_range 0 EV_MAX _ []); discriminate. }
  intros EVIOCGBIT EVIOCGABS ev_adjacent code_adjacent n out Hev Hcode Hok.
  apply ioctl_capabilities_returns; try assumption.
  rewrite Hok. simpl. lia.
Qed.

(** ** Capability enumerator: keys and entries against the kernel's answer *)

(** Inside an array of [n] bytes the probe sees the kernel's answer: the
    bit of the answer where the answer reaches, a clear bit behind its
    end. *)
Lemma bit_set_filled (n : nat) (out adj : mem) (i : Z) :
  0 <= i -> i / 8 < Z.of_nat n ->
  bit_set (filled n out ++ adj) i = bit_set out i.
Proof.
  intros Hi Hn. unfold bit_set, test_bit.
  rewrite Z.quot_div_nonneg, Z.rem_mod_nonneg by lia.
  pose proof (Z.div_pos i 8 Hi ltac:(lia)) as Hd.
  pose proof (Z.mod_pos_bound i 8 ltac:(lia)) as Hm.
  destruct (Z.ltb_spec (i / 8) 0); [lia|].
  destruct (Z.ltb_spec (i mod 8) 0); [lia|]. cbn [orb].
  set (k := Z.to_nat (i / 8)).
  assert (Hk : (k < n)%nat) by (unfold k; lia).
  rewrite nth_error_app1 by (rewrite filled_length; exact Hk).
  unfold filled, poke. rewrite nth_error_firstn.
  destruct (Nat.ltb_spec k n); [|lia].
  destruct (Nat.lt_ge_cases k (length out)) as [Hlt | Hge].
  - now rewrite nth_error_app1 by exact Hlt.
  - rewrite nth_error_app2 by exact Hge.
    rewrite nth_error_skipn.
    unfold zeroed. rewrite nth_error_repeat by lia.
    rewrite Z.land_0_l. cbn [Z.eqb negb].
    destruct (nth_error out k) eqn:E; [|reflexivity].
    assert (nth_error out k <> None) as N by congruence.
    apply nth_error_Some in N. lia.
Qed.

(** In a returned capability map the keys are strictly ascending and below
    [EV_MAX]; a type below 24 is a key exactly when the kernel's answer to
    the first request has its bit set.  Each value is a list over strictly
    ascending codes below [KEY_MAX], a code below 760 being listed exactly
    when the kernel's answer to the request for that type has its bit set;
    the entry of a code is the pair of the code and the six fields of its
    [EVIOCGABS] request under [EV_ABS], the bare code otherwise. *)
Theorem ioctl_capabilities_keys_and_entries
  (EVIOCGBIT : Z -> Z -> ioctl_result) (EVIOCGABS : Z -> ioctl_result)
  (ev_adjacent : Z -> mem) (code_adjacent : Z -> Z -> mem)
  (errno : Z) (caps : list (Z * PyObject)) :
  ioctl_capabilities EVIOCGBIT EVIOCGABS ev_adjacent code_adjacent errno
  = Return (PyDict caps) ->
  StronglySorted Z.lt (map fst caps) /\
  (forall t, 0 <= t < 24 ->
             (In t (map fst caps) <->
              bit_set (ioctl_out (EVIOCGBIT 0 EV_MAX)) t = true)) /\
  (forall t v,
      In (t, v) caps ->
      0 <= t < EV_MAX /\
      exists codes,
        v = PyList
              (map (fun c =>
                      if t =? EV_ABS
                      then PyTuple
                             [PyLong c;
                              absinfo_tuple
                                (filled sizeof_input_absinfo
                                   (ioctl_out (EVIOCGABS c)))]
                      else PyLong c)
                   codes) /\
        StronglySorted Z.lt codes /\
        (forall c, In c codes -> 0 <= c < KEY_MAX) /\
        (forall c, 0 <= c < 760 ->
                   (In c codes <->
                    bit_set (ioctl_out (EVIOCGBIT t KEY_MAX)) c = true))).
Proof.
  intro Hrun. apply ioctl_capabilities_result in Hrun. injection Hrun as ->.
  assert (Hkeys : map fst (capability_map EVIOCGBIT EVIOCGABS ev_adjacent
                             code_adjacent)
                  = probed_types EVIOCGBIT ev_adjacent).
  { unfold capability_map. rewrite map_map. cbn [fst]. apply map_id. }
  assert (Htypes : forall t,
             In t (probed_types EVIOCGBIT ev_adjacent) ->
             0 <= t < EV_MAX).
  { intros t Ht. unfold probed_types, indices in Ht.
    apply filter_In in Ht. destruct Ht as [Ht _].
    apply seqZ_In in Ht. unfold EV_MAX in *. simpl Z.of_nat in Ht. lia. }
  split; [rewrite Hkeys; apply filter_sorted, seqZ_sorted|].
  split.
  - intros t Ht. rewrite Hkeys. unfold probed_types, indices.
    rewrite filter_In, seqZ_In. unfold type_probed.
    rewrite bit_set_filled.
    + unfold EV_MAX. simpl Z.of_nat. split; [tauto|]. intro H.
      split; [lia | exact H].
    + lia.
    + change (Z.of_nat sizeof_ev_bits) with 3.
      apply Z.div_lt_upper_bound; lia.
  - intros t v Hin. unfold capability_map in Hin.
    apply in_map_iff in Hin. destruct Hin as (t' & E & Ht').
    injection E as -> <-. split; [now apply Htypes|].
    exists (probed_codes EVIOCGBIT code_adjacent t).
    split; [reflexivity|].
    split; [apply filter_sorted, seqZ_sorted|].
    split.
    + intros c Hc. unfold probed_codes, indices in Hc.
      apply filter_In in Hc. destruct Hc as [Hc _].
      apply seqZ_In in Hc. unfold KEY_MAX in *. simpl Z.of_nat in Hc. lia.
    + intros c Hc. unfold probed_codes, indices.
      rewrite filter_In, seqZ_In. unfold code_probed.
      rewrite bit_set_filled.
      * unfold KEY_MAX. simpl Z.of_nat. split; [tauto|]. intro H.
        split; [lia | exact H].
      * lia.
      * change (Z.of_nat sizeof_code_bits) with 95.
        apply Z.div_lt_upper_bound; lia.
Qed.

(** The sample device in a frame whose byte behind [ev_bits] is set: the
    keys are ascending, the key 24 among them. *)
Lemma ioctl_capabilities_keys_and_entries_witness :
  StronglySorted Z.lt [1; 3; 24].
Proof.
  refine (proj1
            (@ioctl_capabilities_keys_and_entries
               sample_EVIOCGBIT sample_EVIOCGABS
               stale_ev_adjacent sample_code_adjacent 0
               [(1, PyList [PyLong 30; PyLong 48]);
                (3, PyList
                      [PyTuple [PyLong 0;
                                PyTuple [PyLong 128; PyLong (-255);
                                         PyLong 255; PyLong 0; PyLong 15;
                                         PyLong 0]];
                       PyTuple [PyLong 1;
                                PyTuple [PyLong 129; PyLong (-255);
                                         PyLong 255; PyLong 0; PyLong 15;
                                         PyLong 0]]]);
                (24, PyList [])] _)).
  vm_compute. reflexivity.
Defined.
